(** * A verification model of the media-downloader Telegram bot (src/bot.js)

    The bot is a single-process, event-driven Node.js program.  Its globals
    ([activeDownloadCount], [currentDownloadProcess]), the downloads
    directory and the calls made to the messaging API are collected in one
    explicit state record; every handler and callback of the source is a
    function on that state.  An asynchronous handler is cut at its
    [await]s into the pieces that run without interruption, and what the
    environment decides (the clock, how a process ends, whether a
    transmission succeeds) is an argument of the piece that meets it.

    A string is the UTF-8 encoding of the JavaScript string it stands for
    (a text without lone surrogates, as every text of a message is).
    Searching for and splitting at an ASCII text gives the same result on
    the encoding as on the string itself; [trim] and the dot of the
    command patterns know the encodings of the Unicode white space and
    line terminators.
    Console output and the [/start] and [/help] replies are left out:
    nothing below depends on them.  The time stamp of a log record is the
    text that the clock gave. *)

From stdpp Require Import base strings list gmap pretty.
From Stdlib Require Import ZArith Lia.

Open Scope string_scope.

(** ** JavaScript string operations *)

Module JsString.

(** [s.startsWith(p)] *)
Fixpoint startsWith (s p : string) {struct p} : bool :=
  match p with
  | "" => true
  | String a p' =>
      match s with
      | "" => false
      | String b s' => if Ascii.eqb a b then startsWith s' p' else false
      end
  end.

(** [s.slice(n)] for [0 <= n] *)
Fixpoint slice (n : nat) (s : string) : string :=
  match n, s with
  | O, _ => s
  | S _, "" => ""
  | S n', String _ s' => slice n' s'
  end.

(** [s.includes(p)] *)
Fixpoint includes (s p : string) : bool :=
  startsWith s p ||
  match s with
  | "" => false
  | String _ s' => includes s' p
  end.

(** The first occurrence of [sep] in [s]: the text before it and the text
    after it ([s.indexOf(sep)] and the two slices around it). *)
Fixpoint break_at (s sep : string) : option (string * string) :=
  if startsWith s sep then Some ("", slice (String.length sep) s)
  else match s with
       | "" => None
       | String c s' =>
           match break_at s' sep with
           | Some (a, b) => Some (String c a, b)
           | None => None
           end
       end.

(** [s.split(sep)] for a non-empty separator: the pieces between the
    successive, non-overlapping occurrences of [sep], found left to
    right.  Each round consumes at least one character, so
    [String.length s] rounds are enough. *)
Fixpoint split_rounds (n : nat) (s sep : string) : list string :=
  match n with
  | O => [s]
  | S n' =>
      match break_at s sep with
      | None => [s]
      | Some (a, b) => a :: split_rounds n' b sep
      end
  end.

Definition split (s sep : string) : list string :=
  split_rounds (String.length s) s sep.

(** The text of [s] before the first occurrence of [sep], all of [s] when
    there is none. *)
Definition before (s sep : string) : string :=
  match break_at s sep with
  | Some (a, _) => a
  | None => s
  end.

(** The string with the given bytes. *)
Definition utf8 (bytes : list nat) : string :=
  String.string_of_list_ascii (map Ascii.ascii_of_nat bytes).

(** The characters that [trim] removes, in UTF-8: the white space and the
    line terminators of the language.  In the order of the list: tab, line
    feed, vertical tab, form feed, carriage return, space, U+00A0, U+1680,
    U+2000 to U+200A, U+2028, U+2029, U+202F, U+205F, U+3000 and U+FEFF. *)
Definition whiteSpaceCharacters : list string :=
  [ utf8 [9]; utf8 [10]; utf8 [11]; utf8 [12]; utf8 [13]; utf8 [32];
    utf8 [194; 160]; utf8 [225; 154; 128];
    utf8 [226; 128; 128]; utf8 [226; 128; 129]; utf8 [226; 128; 130];
    utf8 [226; 128; 131]; utf8 [226; 128; 132]; utf8 [226; 128; 133];
    utf8 [226; 128; 134]; utf8 [226; 128; 135]; utf8 [226; 128; 136];
    utf8 [226; 128; 137]; utf8 [226; 128; 138];
    utf8 [226; 128; 168]; utf8 [226; 128; 169]; utf8 [226; 128; 175];
    utf8 [226; 129; 159]; utf8 [227; 128; 128]; utf8 [239; 187; 191] ].

(** The number of bytes of the white space character that [s] begins
    with, zero when it begins with none. *)
Definition whiteSpaceLength (s : string) : nat :=
  match List.find (fun w => startsWith s w) whiteSpaceCharacters with
  | Some w => String.length w
  | None => 0
  end.

(** [trimStartFrom skip s] drops [skip] bytes, the rest of a white space
    character, and then every white space character that follows. *)
Fixpoint trimStartFrom (skip : nat) (s : string) : string :=
  match s with
  | "" => ""
  | String _ s' =>
      match skip with
      | S k => trimStartFrom k s'
      | O =>
          match whiteSpaceLength s with
          | O => s
          | S k => trimStartFrom k s'
          end
      end
  end.

Definition trimStart (s : string) : string := trimStartFrom 0 s.

(** Whether [s], after its first [skip] bytes, is made of white space
    characters only. *)
Fixpoint allWhiteSpaceFrom (skip : nat) (s : string) : bool :=
  match s with
  | "" => true
  | String _ s' =>
      match skip with
      | S k => allWhiteSpaceFrom k s'
      | O =>
          match whiteSpaceLength s with
          | O => false
          | S k => allWhiteSpaceFrom k s'
          end
      end
  end.

(** [trimEnd] cuts the string at the first place from which only white
    space follows. *)
Fixpoint trimEnd (s : string) : string :=
  match s with
  | "" => ""
  | String c s' => if allWhiteSpaceFrom 0 s then "" else String c (trimEnd s')
  end.

(** [s.trim()] *)
Definition trim (s : string) : string := trimEnd (trimStart s).

(** [toLowerCase] is exact on the ASCII letters.  The other characters are
    left as they are, where the platform maps some of them to other
    characters outside ASCII, the Kelvin sign to k and the dotted capital
    I to an i followed by a combining dot.  No such mapping gives or takes
    a white space character or a slash, and none gives the text hi or
    hello, so the tests that the handler of every message makes on the
    lowered text have the same outcome. *)
Definition lowerChar (c : Ascii.ascii) : Ascii.ascii :=
  let n := Ascii.nat_of_ascii c in
  if (65 <=? n)%nat && (n <=? 90)%nat then Ascii.ascii_of_nat (n + 32) else c.

(** [s.toLowerCase()] *)
Fixpoint toLowerCase (s : string) : string :=
  match s with
  | "" => ""
  | String c s' => String (lowerChar c) (toLowerCase s')
  end.

End JsString.

Import JsString.

(** ** URL validation (bot.js, lines 54-71) *)

Definition shortsMarker : string := "youtube.com/shorts/".
Definition watchPrefix : string := "https://www.youtube.com/watch?v=".

(** [normalizeUrl]: the optional chaining on the second piece of the split
    yields [undefined] when there is no second piece, which the template
    literal prints as the text "undefined". *)
Definition normalizeUrl (url : string) : string :=
  if includes url shortsMarker then
    let videoId :=
      match split url "/shorts/" !! 1%nat with
      | Some piece => split piece "?" !! 0%nat
      | None => None
      end in
    watchPrefix +:+ default "undefined" videoId
  else url.


(** The video identifier in the words of the specification: the text that
    follows the shorts marker, cut at the first question mark. *)
Definition videoIdAfterMarker (url : string) : option string :=
  match break_at url shortsMarker with
  | Some (_, rest) => Some (before rest "?")
  | None => None
  end.

(** ** Values and completions

    [JsValue] holds the values that the source passes as message text or as
    the reason of a rejection: strings, [Error] objects and [undefined].
    A [Completion] is the outcome of a call that may throw. *)

Inductive JsValue :=
| VString (s : string)
| VError (name message : string)
| VUndefined.

Inductive Completion (A : Type) :=
| Normal (a : A)
| Throw (e : JsValue).
Arguments Normal {A} a.
Arguments Throw {A} e.

(** The value of [error || fallback]: only the empty string and [undefined]
    are falsy among the values above. *)
Definition orElse (error : JsValue) (fallback : string) : JsValue :=
  match error with
  | VString "" | VUndefined => VString fallback
  | _ => error
  end.

(** A host-name reader that takes the place of [new URL(url).hostname] in
    the runs of the model on concrete inputs, and nowhere else: every
    result about the program holds for every parser.  It is not the
    platform parser.  It gives the host of a URL of the shape
    http(s)://host[:port][/path][?query][#fragment] written in lower case
    with no user information and no backslash, as the platform does, and
    throws on input without a scheme, as the platform does; on other
    inputs (upper case, user information, backslashes, a missing slash)
    it differs from the platform, and no run below uses such an input. *)
Definition authorityOf (rest : string) : string :=
  before (before (before rest "/") "?") "#".

Definition hostOfAuthority (rest : string) : Completion string :=
  match before (authorityOf rest) ":" with
  | "" => Throw (VError "TypeError" "Invalid URL")
  | host => Normal host
  end.

Definition simpleHostname (url : string) : Completion string :=
  if startsWith url "http://" then hostOfAuthority (slice 7 url)
  else if startsWith url "https://" then hostOfAuthority (slice 8 url)
  else Throw (VError "TypeError" "Invalid URL").

(** ** Bot state *)

(** Calls made to the outside world, in the order they are made.  A call
    of [exec] is a [Spawn] when it returns a child process and an
    [ExecRaised] when it throws. *)
Inductive Effect :=
| SendMessage (chatId : Z) (text : JsValue)
| SendAudio (chatId : Z) (file : option string)
| SendVideo (chatId : Z) (file : option string)
| Spawn (child : nat) (command : string)
| Kill (child : nat) (signal : string)
| LogUserAction (chatId : Z) (action : string)
| ExecRaised (command : string).

(** [downloads] is the set of files present in the downloads directory;
    a child process is named by the number the environment gives it. *)
Record BotState := mkBotState {
  activeDownloadCount : Z;
  currentDownloadProcess : option nat;
  downloads : gset string;
  effects : list Effect
}.

Definition initialState : BotState :=
  mkBotState 0 None ∅ [].

Definition maxConcurrentDownloads : Z := 5.

Definition SUPPORTED_DOMAINS : list string :=
  [ "youtube.com"; "youtu.be"; "vimeo.com"; "dailymotion.com";
    "soundcloud.com"; "facebook.com"; "1024terabox.com"; "instagram.com" ].

Definition setCount (n : Z) (st : BotState) : BotState :=
  mkBotState n (currentDownloadProcess st) (downloads st) (effects st).

Definition setProcess (p : option nat) (st : BotState) : BotState :=
  mkBotState (activeDownloadCount st) p (downloads st) (effects st).

Definition setDownloads (d : gset string) (st : BotState) : BotState :=
  mkBotState (activeDownloadCount st) (currentDownloadProcess st) d (effects st).

Definition emit (e : Effect) (st : BotState) : BotState :=
  mkBotState (activeDownloadCount st) (currentDownloadProcess st)
             (downloads st) (effects st ++ [e]).

(** [bot.sendMessage(chatId, text)] *)
Definition sendMessage (chatId : Z) (text : JsValue) : BotState -> BotState :=
  emit (SendMessage chatId text).

(** [logUserAction(chatId, action)] *)
Definition logUserAction (chatId : Z) (action : string) : BotState -> BotState :=
  emit (LogUserAction chatId action).

(** [fs.unlinkSync(path)] on a path of the downloads directory: throws on
    [undefined] and on a file that does not exist. *)
Definition unlinkSync (path : option string) (st : BotState) : Completion BotState :=
  match path with
  | None => Throw (VError "TypeError" "The path argument must be of type string")
  | Some p =>
      if decide (p ∈ downloads st)
      then Normal (setDownloads (downloads st ∖ {[p]}) st)
      else Throw (VError "Error" "ENOENT: no such file or directory, unlink")
  end.

(** The text messages sent by a run. *)
Definition notices (st : BotState) : list (Z * JsValue) :=
  omap (fun e => match e with
                 | SendMessage c t => Some (c, t)
                 | _ => None
                 end) (effects st).

Definition isTransmission (e : Effect) : bool :=
  match e with
  | SendAudio _ _ | SendVideo _ _ => true
  | _ => false
  end.

Definition isSpawn (e : Effect) : bool :=
  match e with
  | Spawn _ _ => true
  | _ => false
  end.

(** ** Requests, results and events *)

(** The three download commands: [/audio], [/video] and [/mute-video]. *)
Inductive Command := Audio | Video | MuteVideo.

Definition isAudioOf (c : Command) : bool :=
  match c with
  | Audio => true
  | _ => false
  end.

Definition formatOf (c : Command) : string :=
  match c with
  | Audio => "bestaudio"
  | Video => "bestvideo+bestaudio"
  | MuteVideo => "bestvideo"
  end.

Definition commandName (c : Command) : string :=
  match c with
  | Audio => "audio"
  | Video => "video"
  | MuteVideo => "mute-video"
  end.

Definition downloadingNotice (c : Command) : string :=
  match c with
  | Audio => "⏳ Downloading audio..."
  | Video => "⏳ Downloading video..."
  | MuteVideo => "⏳ Downloading video without audio..."
  end.

Definition queueFullNotice : string :=
  "⏳ The download queue is full. Please wait until a slot becomes available.".
Definition invalidUrlNotice : string := "⚠️ Please provide a valid URL.".
Definition unsupportedNotice : string := "❌ This URL is not supported.".
Definition downloadFailedNotice : string := "❌ Download failed. Please try again.".
Definition noDownloadNotice : string := "❌ No download in progress.".
Definition stoppedNotice : string := "🛑 Download stopped successfully.".
Definition invalidCommandNotice : string :=
  "❌ Invalid command or message. Use /help command for available commands.".

(** What [downloadMedia] hands back to its caller. *)
Inductive DownloadReturn :=
| ReturnsUndefined
| ReturnsPromise (child : nat) (filePath : string).

(** How the promise awaited by a handler settles. *)
Inductive Settled :=
| Fulfilled (filePath : option string)
| RejectedWith (reason : JsValue).

(** The ways a child process ends.  [SpawnFailed] is a failure that the
    child reports through its [error] event, as for a shell that is not
    found; a failure that [exec] throws at the call is [ExecThrew] of
    [ExecOutcome] below. *)
Inductive Termination :=
| ExitedZero
| ExitedNonZero
| SpawnFailed
| KilledBySignal.

(** [exec] passes an error to its callback unless the child exited with
    code zero. *)
Definition execError (t : Termination) : bool :=
  match t with
  | ExitedZero => false
  | _ => true
  end.

(** Where an asynchronous handler stands when it gives control back. *)
Inductive Pending :=
| Finished
| Uncaught (e : JsValue)
| AwaitValue
| AwaitDownload (child : nat) (filePath : string)
| AwaitSend (filePath : option string)
| AwaitRejected (e : JsValue).

(** What the call of [exec] at line 90 does: it returns a child process or
    it throws. *)
Inductive ExecOutcome :=
| ExecStarted (child : nat)
| ExecThrew (e : JsValue).

(** What [downloadMedia] hands back on either path: [undefined], a pending
    promise, or a promise that its executor rejected. *)
Inductive MediaReturn :=
| MediaUndefined
| MediaPending (child : nat) (filePath : string)
| MediaRejected (e : JsValue).

Definition mediaReturn (r : DownloadReturn) : MediaReturn :=
  match r with
  | ReturnsUndefined => MediaUndefined
  | ReturnsPromise child filePath => MediaPending child filePath
  end.

Record Message := mkMessage {
  chat_id : Z;
  chat_first_name : option string;
  text : option string
}.

Definition dquote : string := String (Ascii.ascii_of_nat 34) "".
Definition ytDlpPath : string := "C:/ytdlp/yt-dlp.exe".

(** ** Command patterns (lines 150 and 191)

    The two download handlers are registered on unanchored patterns, a
    slash, the command word, one space and [(.+)].  The dot matches every
    character but a line terminator and the quantifier is greedy, so the
    group holds the rest of the line. *)

(** The line terminators of the language, in UTF-8: line feed, carriage
    return, U+2028 and U+2029. *)
Definition lineTerminators : list string :=
  [ utf8 [10]; utf8 [13]; utf8 [226; 128; 168]; utf8 [226; 128; 169] ].

(** Whether [s] begins with a line terminator. *)
Definition lineTerminatorAt (s : string) : bool :=
  existsb (fun t => startsWith s t) lineTerminators.

(** The longest run of characters at the start of [s] that the dot
    matches: the text up to the first line terminator. *)
Fixpoint dotRun (s : string) : string :=
  match s with
  | "" => ""
  | String c s' => if lineTerminatorAt s then "" else String c (dotRun s')
  end.

(** A text in which no line terminator begins anywhere. *)
Fixpoint oneLine (s : string) : bool :=
  match s with
  | "" => true
  | String _ s' => negb (lineTerminatorAt s) && oneLine s'
  end.

(** [(.+)] at the start of [s]: the run, when it is not empty. *)
Definition dotPlus (s : string) : option string :=
  match dotRun s with
  | "" => None
  | arg => Some arg
  end.

(** The pattern of the audio and video handler, tried at the start of [s];
    the result holds the two groups. *)
Definition downloadPatternHere (s : string) : option (Command * string) :=
  if startsWith s "/audio " then
    match dotPlus (slice 7 s) with
    | Some arg => Some (Audio, arg)
    | None => None
    end
  else if startsWith s "/video " then
    match dotPlus (slice 7 s) with
    | Some arg => Some (Video, arg)
    | None => None
    end
  else None.

(** [exec] of the pattern on a text: the match at the leftmost position
    that has one. *)
Fixpoint downloadPatternExec (s : string) : option (Command * string) :=
  match downloadPatternHere s with
  | Some r => Some r
  | None =>
      match s with
      | "" => None
      | String _ s' => downloadPatternExec s'
      end
  end.

(** The pattern of the mute-video handler. *)
Definition mutePatternHere (s : string) : option string :=
  if startsWith s "/mute-video " then dotPlus (slice 12 s) else None.

Fixpoint mutePatternExec (s : string) : option string :=
  match mutePatternHere s with
  | Some r => Some r
  | None =>
      match s with
      | "" => None
      | String _ s' => mutePatternExec s'
      end
  end.

(** A line feed or a carriage return, the characters that end a line of
    the log file. *)
Definition isLineBreak (c : Ascii.ascii) : bool :=
  let n := Ascii.nat_of_ascii c in
  (n =? 10)%nat || (n =? 13)%nat.

Definition noLineBreak (s : string) : bool :=
  forallb (fun c => negb (isLineBreak c)) (String.list_ascii_of_string s).

(** ** The action log (lines 44-52)

    [JSON.stringify] writes a string between double quotes and escapes the
    quote, the backslash and every character below the space. *)

Definition hexDigit (n : nat) : string :=
  String.substring n 1 "0123456789abcdef".

Definition quoteJSONChar (c : Ascii.ascii) : string :=
  let n := Ascii.nat_of_ascii c in
  if (n =? 8)%nat then "\b"
  else if (n =? 9)%nat then "\t"
  else if (n =? 10)%nat then "\n"
  else if (n =? 12)%nat then "\f"
  else if (n =? 13)%nat then "\r"
  else if (n =? 34)%nat then "\" +:+ dquote
  else if (n =? 92)%nat then "\\"
  else if (n <? 32)%nat then "\u00" +:+ hexDigit (n / 16) +:+ hexDigit (n mod 16)
  else String c "".

Fixpoint quoteJSONBody (s : string) : string :=
  match s with
  | "" => ""
  | String c s' => quoteJSONChar c +:+ quoteJSONBody s'
  end.

Definition quoteJSON (s : string) : string :=
  dquote +:+ quoteJSONBody s +:+ dquote.

(** [JSON.stringify(logData)] for the record built by [logUserAction];
    [timestamp] is the text that [toISOString] returned. *)
Definition logRecord (chatId : Z) (action timestamp : string) : string :=
  "{" +:+ quoteJSON "chatId" +:+ ":" +:+ pretty chatId +:+ ","
  +:+ quoteJSON "action" +:+ ":" +:+ quoteJSON action +:+ ","
  +:+ quoteJSON "timestamp" +:+ ":" +:+ quoteJSON timestamp +:+ ","
  +:+ quoteJSON "ip" +:+ ":" +:+ quoteJSON "Unavailable" +:+ "}".

(** The text that [logUserAction] appends to the log file. *)
Definition logLine (chatId : Z) (action timestamp eol : string) : string :=
  logRecord chatId action timestamp +:+ eol.

(** ** The program *)

Section Bot.

(** [new URL(url).hostname]: the host name, or the exception thrown by the
    constructor. *)
Variable newURLHostname : string -> Completion string.

(** [downloadsDir] and the separator [path.join] puts after it. *)
Variable downloadsDir : string.
Variable pathSep : string.

(** The body of the [try] block of [isSupportedDomain]. *)
Definition isSupportedDomainTry (url : string) : Completion bool :=
  match newURLHostname url with
  | Normal hostname =>
      Normal (existsb (fun domain => includes hostname domain) SUPPORTED_DOMAINS)
  | Throw e => Throw e
  end.

Definition isSupportedDomain (url : string) : Completion bool :=
  match isSupportedDomainTry url with
  | Normal b => Normal b
  | Throw _ => Normal false
  end.

Definition outputPath (now : N) (isAudio : bool) : string :=
  let extension := if isAudio then "mp3" else "mp4" in
  let fileName := pretty now +:+ "." +:+ extension in
  downloadsDir +:+ pathSep +:+ fileName.

Definition commandLine (format filePath url : string) : string :=
  dquote +:+ ytDlpPath +:+ dquote +:+ " -f " +:+ format +:+ " -o "
  +:+ dquote +:+ filePath +:+ dquote +:+ " " +:+ url.

(** [downloadMedia], up to the return of the promise, on the path on which
    [exec] returns.  [now] is the reading of [Date.now()] and [child] the
    process that [exec] starts.  [downloadMediaExec] below has this path
    and the one on which [exec] throws. *)
Definition downloadMedia (now : N) (child : nat) (url format : string)
    (isAudio : bool) (chatId : Z) (st : BotState) : BotState * DownloadReturn :=
  if (maxConcurrentDownloads <=? activeDownloadCount st)%Z then
    (sendMessage chatId (VString queueFullNotice) st, ReturnsUndefined)
  else
    let st1 := setCount (activeDownloadCount st + 1) st in
    let filePath := outputPath now isAudio in
    let st2 := emit (Spawn child (commandLine format filePath url)) st1 in
    (setProcess (Some child) st2, ReturnsPromise child filePath).

(** [downloadMedia] on both paths of [exec].  When [exec] throws, the
    counter has been raised at line 80 and stays so, no process is
    registered and no listener put; the executor of the promise catches
    the exception and the promise is rejected with it. *)
Definition downloadMediaExec (now : N) (exec : ExecOutcome) (url format : string)
    (isAudio : bool) (chatId : Z) (st : BotState) : BotState * MediaReturn :=
  if (maxConcurrentDownloads <=? activeDownloadCount st)%Z then
    (sendMessage chatId (VString queueFullNotice) st, MediaUndefined)
  else
    let st1 := setCount (activeDownloadCount st + 1) st in
    let filePath := outputPath now isAudio in
    match exec with
    | ExecStarted child =>
        let st2 := emit (Spawn child (commandLine format filePath url)) st1 in
        (setProcess (Some child) st2, MediaPending child filePath)
    | ExecThrew e =>
        (emit (ExecRaised (commandLine format filePath url)) st1, MediaRejected e)
    end.

(** The callback given to [exec] (lines 90-101). *)
Definition execCallback (error : bool) (stdout stderr filePath : string)
    (st : BotState) : BotState * Settled :=
  let st1 := setCount (activeDownloadCount st - 1) st in
  let st2 := setProcess None st1 in
  if error then (st2, RejectedWith (VString ("❌ Download error: " +:+ stderr)))
  else (st2, Fulfilled (Some filePath)).

(** The listener registered on the child's [close] event (lines 104-107). *)
Definition closeListener (st : BotState) : BotState :=
  setProcess None (setCount (activeDownloadCount st - 1) st).

(** The end of a child process that [exec] returned.  [exec] calls its
    callback once, from the [close] event of the child (from its [error]
    event when the child reports that the spawn failed); the listeners the
    program put on [close] run after it.  A call of [exec] that throws
    returns no child and has no such end: it is the path [ExecThrew] of
    [downloadMediaExec]. *)
Definition processEnded (t : Termination) (stdout stderr filePath : string)
    (st : BotState) : BotState * Settled :=
  let '(st1, r) := execCallback (execError t) stdout stderr filePath st in
  (closeListener st1, r).

(** The [catch] block of the download handlers. *)
Definition catchHandler (chatId : Z) (error : JsValue) : BotState -> BotState :=
  sendMessage chatId (orElse error downloadFailedNotice).

Definition transmit (c : Command) (chatId : Z) (filePath : option string)
    : BotState -> BotState :=
  emit (if isAudioOf c then SendAudio chatId filePath else SendVideo chatId filePath).

(** The download handlers (lines 150-224), up to the first [await].  [arg]
    is the text captured by the command's pattern. *)
Definition onDownloadCommand (c : Command) (chatId : Z) (arg : string)
    (now : N) (child : nat) (st : BotState) : BotState * Pending :=
  let url := trim arg in
  if (url =? "")%string || negb (startsWith url "http") then
    (sendMessage chatId (VString invalidUrlNotice) st, Finished)
  else
    let normalizedUrl := normalizeUrl url in
    match isSupportedDomain normalizedUrl with
    | Throw e => (st, Uncaught e)
    | Normal false => (sendMessage chatId (VString unsupportedNotice) st, Finished)
    | Normal true =>
        let st1 := sendMessage chatId (VString (downloadingNotice c)) st in
        let st2 := logUserAction chatId (commandName c +:+ " " +:+ normalizedUrl) st1 in
        match downloadMedia now child normalizedUrl (formatOf c) (isAudioOf c) chatId st2 with
        | (st3, ReturnsUndefined) => (st3, AwaitValue)
        | (st3, ReturnsPromise ch filePath) => (st3, AwaitDownload ch filePath)
        end
    end.

(** The download handlers on both paths of [exec]. *)
Definition onDownloadCommandExec (c : Command) (chatId : Z) (arg : string)
    (now : N) (exec : ExecOutcome) (st : BotState) : BotState * Pending :=
  let url := trim arg in
  if (url =? "")%string || negb (startsWith url "http") then
    (sendMessage chatId (VString invalidUrlNotice) st, Finished)
  else
    let normalizedUrl := normalizeUrl url in
    match isSupportedDomain normalizedUrl with
    | Throw e => (st, Uncaught e)
    | Normal false => (sendMessage chatId (VString unsupportedNotice) st, Finished)
    | Normal true =>
        let st1 := sendMessage chatId (VString (downloadingNotice c)) st in
        let st2 := logUserAction chatId (commandName c +:+ " " +:+ normalizedUrl) st1 in
        match downloadMediaExec now exec normalizedUrl (formatOf c) (isAudioOf c)
                chatId st2 with
        | (st3, MediaUndefined) => (st3, AwaitValue)
        | (st3, MediaPending ch filePath) => (st3, AwaitDownload ch filePath)
        | (st3, MediaRejected e) => (st3, AwaitRejected e)
        end
    end.

(** The handler resumes when the awaited value settles: a rejection goes to
    the [catch] block, a value is passed to [sendAudio] or [sendVideo]. *)
Definition afterDownload (c : Command) (chatId : Z) (r : Settled)
    (st : BotState) : BotState * Pending :=
  match r with
  | RejectedWith e => (catchHandler chatId e st, Finished)
  | Fulfilled filePath => (transmit c chatId filePath st, AwaitSend filePath)
  end.

(** The handler resumes when the transmission settles. *)
Definition afterSend (chatId : Z) (filePath : option string) (r : Completion unit)
    (st : BotState) : BotState :=
  match r with
  | Throw e => catchHandler chatId e st
  | Normal _ =>
      match unlinkSync filePath st with
      | Normal st' => st'
      | Throw e => catchHandler chatId e st
      end
  end.

(** The [/stop] handler (lines 227-239). *)
Definition onStop (chatId : Z) (st : BotState) : BotState :=
  match currentDownloadProcess st with
  | None => sendMessage chatId (VString noDownloadNotice) st
  | Some p =>
      let st1 := emit (Kill p "SIGINT") st in
      let st2 := setProcess None st1 in
      sendMessage chatId (VString stoppedNotice) st2
  end.

(** The [/delete] handler (lines 242-262); [readdirFailed] tells whether
    the directory listing reported an error. *)
Definition onDelete (chatId : Z) (readdirFailed : bool) (st : BotState) : BotState :=
  if readdirFailed then sendMessage chatId (VString "❌ Failed to delete files.") st
  else if decide (downloads st = ∅) then
    sendMessage chatId (VString "⚠️ No files to delete.") st
  else
    sendMessage chatId (VString "🗑️ All downloaded files have been deleted.")
                (setDownloads ∅ st).

(** The daily sweep (lines 112-124). *)
Definition dailySweep (readdirFailed : bool) (st : BotState) : BotState :=
  if readdirFailed then st else setDownloads ∅ st.

(** The handler of every message (lines 265-279). *)
Definition onMessage (msg : Message) (st : BotState) : Completion BotState :=
  match text msg with
  | None =>
      Throw (VError "TypeError" "Cannot read properties of undefined (reading 'toLowerCase')")
  | Some t =>
      let text := trim (toLowerCase t) in
      if (text =? "hi")%string || (text =? "hello")%string then
        let firstName :=
          match chat_first_name msg with
          | None | Some "" => "User"
          | Some n => n
          end in
        Normal (sendMessage (chat_id msg)
                  (VString ("👋 Hello, " +:+ firstName +:+
                     "! Welcome to the Media Downloader Bot! Use /help to see available commands."))
                  st)
      else if negb (startsWith text "/") then
        Normal (sendMessage (chat_id msg) (VString invalidCommandNotice) st)
      else Normal st
  end.

(** ** Runs of the bot *)

Inductive BotEvent :=
| DownloadCommand (c : Command) (chatId : Z) (arg : string) (now : N) (child : nat)
| ProcessEnded (t : Termination) (stdout stderr filePath : string)
| DownloadSettled (c : Command) (chatId : Z) (r : Settled)
| SendSettled (chatId : Z) (filePath : option string) (r : Completion unit)
| StopCommand (chatId : Z)
| DeleteCommand (chatId : Z) (readdirFailed : bool)
| DailySweep (readdirFailed : bool)
| FileWritten (path : string)
| MessageReceived (msg : Message)
| DownloadCommandExecThrew (c : Command) (chatId : Z) (arg : string) (now : N)
    (e : JsValue).

Definition step (st : BotState) (ev : BotEvent) : BotState :=
  match ev with
  | DownloadCommand c chatId arg now child =>
      fst (onDownloadCommand c chatId arg now child st)
  | ProcessEnded t stdout stderr filePath =>
      fst (processEnded t stdout stderr filePath st)
  | DownloadSettled c chatId r => fst (afterDownload c chatId r st)
  | SendSettled chatId filePath r => afterSend chatId filePath r st
  | StopCommand chatId => onStop chatId st
  | DeleteCommand chatId readdirFailed => onDelete chatId readdirFailed st
  | DailySweep readdirFailed => dailySweep readdirFailed st
  | FileWritten path => setDownloads ({[path]} ∪ downloads st) st
  | MessageReceived msg =>
      match onMessage msg st with
      | Normal st' => st'
      | Throw _ => st
      end
  | DownloadCommandExecThrew c chatId arg now e =>
      fst (onDownloadCommandExec c chatId arg now (ExecThrew e) st)
  end.

Definition run (st : BotState) (evs : list BotEvent) : BotState :=
  foldl step st evs.

(** A request that passes the two checks of the handler. *)
Definition validRequest (arg : string) : Prop :=
  ((trim arg =? "")%string || negb (startsWith (trim arg) "http")) = false /\
  isSupportedDomain (normalizeUrl (trim arg)) = Normal true.

(** Requests made one after the other, with no process ending in between. *)
Fixpoint requests (children : list nat) (now : N) (url format : string)
    (isAudio : bool) (chatId : Z) (st : BotState) : BotState * list DownloadReturn :=
  match children with
  | [] => (st, [])
  | child :: rest =>
      let '(st1, r) := downloadMedia now child url format isAudio chatId st in
      let '(st2, rs) := requests rest now url format isAudio chatId st1 in
      (st2, r :: rs)
  end.

Definition isPromise (r : DownloadReturn) : bool :=
  match r with
  | ReturnsPromise _ _ => true
  | ReturnsUndefined => false
  end.

(** The loop over the listing of the downloads directory, shared by the
    sweep and by [/delete]: each name is joined to the directory and
    unlinked.  The loop stops at the first [unlinkSync] that throws; the
    result is the state reached and the exception, if any. *)
Fixpoint unlinkEach (files : list string) (st : BotState)
    : BotState * option JsValue :=
  match files with
  | [] => (st, None)
  | file :: rest =>
      match unlinkSync (Some (downloadsDir +:+ pathSep +:+ file)) st with
      | Normal st' => unlinkEach rest st'
      | Throw e => (st, Some e)
      end
  end.

(** The callback that [/delete] gives to [readdir] (lines 245-261), on the
    error flag and the listing it receives. *)
Definition deleteCallback (chatId : Z) (err : bool) (files : list string)
    (st : BotState) : BotState * option JsValue :=
  if err then (sendMessage chatId (VString "❌ Failed to delete files.") st, None)
  else if (length files =? 0)%nat then
    (sendMessage chatId (VString "⚠️ No files to delete.") st, None)
  else
    match unlinkEach files st with
    | (st', None) =>
        (sendMessage chatId (VString "🗑️ All downloaded files have been deleted.") st',
         None)
    | (st', Some e) => (st', Some e)
    end.

(** The callback of the daily sweep (lines 113-123). *)
Definition sweepCallback (err : bool) (files : list string) (st : BotState)
    : BotState * option JsValue :=
  if err then (st, None) else unlinkEach files st.

(** A listing of the directory that is up to date: each file once, and no
    name that is not there. *)
Definition freshListing (files : list string) (st : BotState) : Prop :=
  (fun file => downloadsDir +:+ pathSep +:+ file) <$> files
  ≡ₚ elements (downloads st).

Definition isExecCall (e : Effect) : bool :=
  match e with
  | Spawn _ _ | ExecRaised _ => true
  | _ => false
  end.

(** The number of calls of [exec] made so far. *)
Definition execCalls (st : BotState) : Z :=
  Z.of_nat (length (filter isExecCall (effects st))).

Definition isProcessEnd (ev : BotEvent) : bool :=
  match ev with
  | ProcessEnded _ _ _ _ => true
  | _ => false
  end.

(** The number of process ends among the events of a run. *)
Definition endedIn (evs : list BotEvent) : Z :=
  Z.of_nat (length (filter isProcessEnd evs)).

(** The bot has started the process [p]. *)
Definition started (p : nat) (st : BotState) : Prop :=
  exists command, Spawn p command ∈ effects st.

(** The registry and the signals sent name started processes only. *)
Definition ownProcesses (st : BotState) : Prop :=
  (forall p, currentDownloadProcess st = Some p -> started p st) /\
  (forall p signal, Kill p signal ∈ effects st -> started p st).

(** ** Facts about the string operations *)

Lemma app_cons (c : Ascii.ascii) (s t : string) :
  String c s +:+ t = String c (s +:+ t).
Proof. reflexivity. Qed.

Lemma app_nil_l (s : string) : "" +:+ s = s.
Proof. reflexivity. Qed.

Lemma app_nil_r (s : string) : s +:+ "" = s.
Proof. induction s as [|c s IH]; [reflexivity|]. by rewrite app_cons, IH. Qed.

Lemma app_assoc_str (a b c : string) : (a +:+ b) +:+ c = a +:+ (b +:+ c).
Proof. induction a as [|x a IH]; [reflexivity|]. by rewrite !app_cons, IH. Qed.

Lemma app_length_str (a b : string) :
  String.length (a +:+ b) = (String.length a + String.length b)%nat.
Proof. induction a as [|x a IH]; [reflexivity|]. rewrite app_cons. simpl. by rewrite IH. Qed.

Lemma startsWith_app (p t : string) : startsWith (p +:+ t) p = true.
Proof.
  induction p as [|c p IH]; [reflexivity|].
  rewrite app_cons. simpl. by rewrite Ascii.eqb_refl.
Qed.

Lemma startsWith_inv (s p : string) :
  startsWith s p = true -> s = p +:+ slice (String.length p) s.
Proof.
  revert s. induction p as [|c p IH]; intros s H; [reflexivity|].
  destruct s as [|b s]; [discriminate|]. simpl in H.
  destruct (Ascii.eqb c b) eqn:E; [|discriminate].
  apply Ascii.eqb_eq in E as ->. rewrite app_cons. simpl. f_equal. by apply IH.
Qed.

Lemma slice_app (p t : string) : slice (String.length p) (p +:+ t) = t.
Proof. induction p as [|c p IH]; [by destruct t|]. by rewrite app_cons. Qed.

Lemma includes_intro (a p b : string) : includes (a +:+ p +:+ b) p = true.
Proof.
  induction a as [|c a IH].
  - rewrite app_nil_l. destruct (p +:+ b) eqn:E; simpl; rewrite <- E;
      by rewrite startsWith_app.
  - rewrite app_cons. simpl. rewrite IH. apply orb_true_r.
Qed.

Lemma includes_inv (s p : string) :
  includes s p = true -> exists a b, s = a +:+ p +:+ b.
Proof.
  induction s as [|c s IH]; simpl; intros H.
  - rewrite orb_false_r in H. exists "", (slice (String.length p) "").
    by apply startsWith_inv.
  - apply orb_true_iff in H as [H|H].
    + exists "", (slice (String.length p) (String c s)). by apply startsWith_inv.
    + destruct (IH H) as (a & b & ->). by exists (String c a), b.
Qed.

(** A text that contains [a +:+ p +:+ b] contains [p]. *)
Lemma includes_inner (s a p b : string) :
  includes s (a +:+ p +:+ b) = true -> includes s p = true.
Proof.
  intros H. apply includes_inv in H as (x & y & ->).
  replace (x +:+ (a +:+ p +:+ b) +:+ y) with ((x +:+ a) +:+ p +:+ (b +:+ y))
    by (by rewrite !app_assoc_str).
  apply includes_intro.
Qed.

Lemma break_at_Some (s sep a b : string) :
  break_at s sep = Some (a, b) -> s = a +:+ sep +:+ b.
Proof.
  revert a. induction s as [|c s IH]; intros a; simpl.
  - destruct (startsWith "" sep) eqn:E; [|discriminate].
    intros [= <- <-]. by apply startsWith_inv.
  - destruct (startsWith (String c s) sep) eqn:E.
    + intros [= <- <-]. by apply startsWith_inv.
    + destruct (break_at s sep) as [[a' b']|] eqn:B; [|discriminate].
      intros [= <- <-]. rewrite app_cons. f_equal. by apply IH.
Qed.

(** [break_at] finds the first occurrence: no occurrence of the separator
    starts inside the text it returns as the part before. *)
Lemma break_at_first (s sep a b : string) :
  break_at s sep = Some (a, b) ->
  forall a1 a2, a = a1 +:+ a2 -> a2 <> "" ->
  startsWith (a2 +:+ sep +:+ b) sep = false.
Proof.
  revert a. induction s as [|c s IH]; intros a; simpl.
  - destruct (startsWith "" sep); [|discriminate].
    intros [= <- <-] a1 a2 E. by destruct a1, a2.
  - destruct (startsWith (String c s) sep) eqn:E.
    + intros [= <- <-] a1 a2 E'. by destruct a1, a2.
    + destruct (break_at s sep) as [[a' b']|] eqn:B; [|discriminate].
      intros [= <- <-] a1 a2 Ha Hne.
      destruct a1 as [|x a1].
      * rewrite app_nil_l in Ha. subst a2. rewrite app_cons.
        apply break_at_Some in B. by rewrite <- B.
      * rewrite app_cons in Ha. injection Ha as _ Ha. by eapply IH.
Qed.

Lemma break_at_None (s sep : string) :
  break_at s sep = None <-> includes s sep = false.
Proof.
  induction s as [|c s IH]; simpl.
  - destruct (startsWith "" sep); simpl; split; congruence.
  - destruct (startsWith (String c s) sep); simpl; [split; congruence|].
    rewrite <- IH. destruct (break_at s sep) as [[??]|]; split; congruence.
Qed.

Lemma break_at_shorter (s sep a b : string) :
  sep <> "" -> break_at s sep = Some (a, b) ->
  (String.length b < String.length s)%nat.
Proof.
  intros Hsep H. apply break_at_Some in H as ->.
  rewrite !app_length_str. destruct sep; [done|]. simpl. lia.
Qed.

Lemma break_at_empty (sep : string) : sep <> "" -> break_at "" sep = None.
Proof. by destruct sep. Qed.

Lemma split_rounds_more (n m : nat) (s sep : string) :
  sep <> "" -> (String.length s <= n)%nat -> (String.length s <= m)%nat ->
  split_rounds n s sep = split_rounds m s sep.
Proof.
  intros Hsep. revert m s. induction n as [|n IH]; intros [|m] s Hn Hm;
    try reflexivity.
  - destruct s; [|simpl in Hn; lia]. cbn [split_rounds]. by rewrite break_at_empty.
  - destruct s; [|simpl in Hm; lia]. cbn [split_rounds]. by rewrite break_at_empty.
  - cbn [split_rounds]. destruct (break_at s sep) as [[a b]|] eqn:B; [|reflexivity].
    pose proof (break_at_shorter _ _ _ _ Hsep B) as Hlt.
    simpl in Hn, Hm. f_equal. apply IH; lia.
Qed.

Lemma split_rounds_enough (n : nat) (s sep : string) :
  sep <> "" -> (String.length s <= n)%nat ->
  split_rounds n s sep = split s sep.
Proof. intros Hsep Hn. unfold split. by apply split_rounds_more. Qed.

(** The recursive reading of [split]: cut at the first occurrence of the
    separator and split what follows it. *)
Lemma split_unfold (s sep : string) :
  sep <> "" ->
  split s sep = match break_at s sep with
                | None => [s]
                | Some (a, b) => a :: split b sep
                end.
Proof.
  intros Hsep. unfold split at 1.
  destruct (String.length s) as [|n] eqn:Hn; cbn [split_rounds].
  - destruct s; [|discriminate]. by rewrite break_at_empty.
  - destruct (break_at s sep) as [[a b]|] eqn:B; [|reflexivity].
    pose proof (break_at_shorter _ _ _ _ Hsep B) as Hlt.
    f_equal. apply split_rounds_enough; [done|lia].
Qed.

Lemma split_head (s sep : string) :
  sep <> "" -> split s sep !! 0%nat = Some (before s sep).
Proof.
  intros Hsep. rewrite split_unfold by done. unfold before.
  by destruct (break_at s sep) as [[a b]|].
Qed.

(** The text before the first occurrence of a separator does not contain
    the separator. *)
Lemma before_excludes (s sep : string) :
  sep <> "" -> includes (before s sep) sep = false.
Proof.
  intros Hsep. unfold before.
  destruct (break_at s sep) as [[a b]|] eqn:B; [|by apply break_at_None].
  destruct (includes a sep) eqn:I; [|reflexivity].
  apply includes_inv in I as (x & y & Ha).
  pose proof (break_at_first _ _ _ _ B x (sep +:+ y) Ha) as F.
  rewrite app_assoc_str, startsWith_app in F.
  discriminate F. by destruct sep.
Qed.
(** ** URL normalisation *)

Lemma includes_marker_shorts (url : string) :
  includes url shortsMarker = true -> includes url "/shorts/" = true.
Proof. apply (includes_inner url "youtube.com" "/shorts/" ""). Qed.

(** The second piece of the split always exists under the marker test, so
    the optional chaining of [normalizeUrl] never yields [undefined]. *)
Lemma split_shorts_second (url : string) :
  includes url shortsMarker = true ->
  exists pre rest,
    break_at url "/shorts/" = Some (pre, rest) /\
    split url "/shorts/" !! 1%nat = Some (before rest "/shorts/").
Proof.
  intros H. apply includes_marker_shorts in H.
  destruct (break_at url "/shorts/") as [[pre rest]|] eqn:B.
  - exists pre, rest. split; [reflexivity|].
    rewrite split_unfold, B by done. apply (split_head rest "/shorts/"). done.
  - apply break_at_None in B. congruence.
Qed.

Lemma normalizeUrl_marker (url : string) :
  includes url shortsMarker = true ->
  exists pre rest,
    break_at url "/shorts/" = Some (pre, rest) /\
    normalizeUrl url = watchPrefix +:+ before (before rest "/shorts/") "?".
Proof.
  intros H. destruct (split_shorts_second url H) as (pre & rest & B & S2).
  exists pre, rest. split; [done|].
  unfold normalizeUrl. rewrite H, S2.
  by rewrite (split_head (before rest "/shorts/") "?").
Qed.

(** C3, as amended: on a URL that contains youtube.com/shorts/ the result
    is the watch prefix followed by the text that lies between the first
    occurrence of /shorts/ and the next one (or the end of the URL), cut at
    the first question mark, so the identifier holds no question mark; a
    URL without the marker is returned unchanged. *)
Theorem normalizeUrl_spec (url : string) :
  (includes url shortsMarker = true ->
   exists pre rest,
     break_at url "/shorts/" = Some (pre, rest) /\
     url = pre +:+ "/shorts/" +:+ rest /\
     normalizeUrl url = watchPrefix +:+ before (before rest "/shorts/") "?" /\
     includes (before (before rest "/shorts/") "?") "?" = false) /\
  (includes url shortsMarker = false -> normalizeUrl url = url).
Proof.
  split; intros H.
  - destruct (normalizeUrl_marker url H) as (pre & rest & B & E).
    exists pre, rest. repeat split; [done|by apply break_at_Some|done|].
    by apply before_excludes.
  - unfold normalizeUrl. by rewrite H.
Qed.

(** When /shorts/ occurs once only, the identifier is all the text after
    the marker up to the first question mark. *)
Corollary normalizeUrl_single_marker (url pre rest : string) :
  includes url shortsMarker = true ->
  break_at url "/shorts/" = Some (pre, rest) ->
  includes rest "/shorts/" = false ->
  normalizeUrl url = watchPrefix +:+ before rest "?".
Proof.
  intros H B N. destruct (normalizeUrl_marker url H) as (p & r & B' & E).
  rewrite B in B'. injection B' as <- <-. rewrite E.
  unfold before at 2. apply break_at_None in N. by rewrite N.
Qed.

(** ** The allow-list test *)

Lemma isSupportedDomain_total (url : string) :
  exists b, isSupportedDomain url = Normal b.
Proof.
  unfold isSupportedDomain, isSupportedDomainTry.
  destruct (newURLHostname url); eauto.
Qed.

(** C4: when the URL constructor throws on the input, [isSupportedDomain]
    completes normally with [false]. *)
Theorem isSupportedDomain_malformed (url : string) (e : JsValue) :
  newURLHostname url = Throw e -> isSupportedDomain url = Normal false.
Proof.
  intros H. unfold isSupportedDomain, isSupportedDomainTry. by rewrite H.
Qed.

Lemma isSupportedDomain_parsed (url hostname : string) :
  newURLHostname url = Normal hostname ->
  isSupportedDomain url =
  Normal (existsb (fun domain => includes hostname domain) SUPPORTED_DOMAINS).
Proof.
  intros H. unfold isSupportedDomain, isSupportedDomainTry. by rewrite H.
Qed.

Lemma not_suffix (s a d : string) :
  slice (String.length s - String.length d) s <> d -> s <> a +:+ d.
Proof.
  intros H ->. apply H. rewrite app_length_str.
  replace (String.length a + String.length d - String.length d)%nat
    with (String.length a) by lia.
  apply slice_app.
Qed.

(** C5: for a URL that parses, the answer is [true] exactly when the host
    name contains an entry of the allow-list somewhere inside it; the host
    notyoutube.com.evil.example, which ends with no entry of the list, is
    accepted. *)
Theorem isSupportedDomain_substring (url hostname : string) :
  newURLHostname url = Normal hostname ->
  (isSupportedDomain url = Normal true <->
   exists domain a b,
     In domain SUPPORTED_DOMAINS /\ hostname = a +:+ domain +:+ b) /\
  (hostname = "notyoutube.com.evil.example" ->
   isSupportedDomain url = Normal true /\
   forall domain a, In domain SUPPORTED_DOMAINS -> hostname <> a +:+ domain).
Proof.
  intros H. rewrite (isSupportedDomain_parsed _ _ H). split.
  - split.
    + intros E.
      assert (existsb (fun domain => includes hostname domain) SUPPORTED_DOMAINS = true)
        as E' by congruence.
      apply existsb_exists in E' as (d & Hd & I).
      apply includes_inv in I as (a & b & ->). by exists d, a, b.
    + intros (d & a & b & Hd & ->). f_equal. apply existsb_exists.
      exists d. split; [done|apply includes_intro].
  - intros ->. split; [reflexivity|].
    intros d a Hd. apply not_suffix.
    simpl in Hd. destruct Hd as [<-|[<-|[<-|[<-|[<-|[<-|[<-|[<-|[]]]]]]]]];
      vm_compute; discriminate.
Qed.

(** ** Admission and release *)

Lemma downloadMedia_below_capacity (now : N) (child : nat) (url format : string)
    (isAudio : bool) (chatId : Z) (st : BotState) :
  (activeDownloadCount st < maxConcurrentDownloads)%Z ->
  downloadMedia now child url format isAudio chatId st =
  (mkBotState (activeDownloadCount st + 1) (Some child) (downloads st)
     (effects st ++ [Spawn child (commandLine format (outputPath now isAudio) url)]),
   ReturnsPromise child (outputPath now isAudio)).
Proof.
  intros H. unfold downloadMedia.
  destruct (Z.leb_spec maxConcurrentDownloads (activeDownloadCount st)); [lia|].
  reflexivity.
Qed.

Lemma downloadMedia_at_capacity (now : N) (child : nat) (url format : string)
    (isAudio : bool) (chatId : Z) (st : BotState) :
  (maxConcurrentDownloads <= activeDownloadCount st)%Z ->
  downloadMedia now child url format isAudio chatId st =
  (sendMessage chatId (VString queueFullNotice) st, ReturnsUndefined).
Proof.
  intros H. unfold downloadMedia.
  destruct (Z.leb_spec maxConcurrentDownloads (activeDownloadCount st)); [|lia].
  reflexivity.
Qed.

Lemma downloadMedia_count_le (now : N) (child : nat) (url format : string)
    (isAudio : bool) (chatId : Z) (st : BotState) :
  (activeDownloadCount st <= maxConcurrentDownloads)%Z ->
  (activeDownloadCount (fst (downloadMedia now child url format isAudio chatId st))
   <= maxConcurrentDownloads)%Z.
Proof.
  intros H. unfold downloadMedia.
  destruct (Z.leb_spec maxConcurrentDownloads (activeDownloadCount st)); simpl; lia.
Qed.

(** On the path on which [exec] returns, [downloadMediaExec] is
    [downloadMedia]. *)
Lemma downloadMediaExec_started (now : N) (child : nat) (url format : string)
    (isAudio : bool) (chatId : Z) (st : BotState) :
  downloadMediaExec now (ExecStarted child) url format isAudio chatId st
  = (fst (downloadMedia now child url format isAudio chatId st),
     mediaReturn (snd (downloadMedia now child url format isAudio chatId st))).
Proof.
  unfold downloadMediaExec, downloadMedia.
  by destruct (maxConcurrentDownloads <=? activeDownloadCount st)%Z.
Qed.

Lemma onDownloadCommandExec_started (c : Command) (chatId : Z) (arg : string)
    (now : N) (child : nat) (st : BotState) :
  onDownloadCommandExec c chatId arg now (ExecStarted child) st
  = onDownloadCommand c chatId arg now child st.
Proof.
  unfold onDownloadCommandExec, onDownloadCommand.
  destruct (_ || _); [done|].
  destruct (isSupportedDomain _) as [[|]|]; try done.
  rewrite downloadMediaExec_started.
  by destruct (downloadMedia _ _ _ _ _ _ _) as [st3 []].
Qed.

Lemma downloadMediaExec_thrown (now : N) (e : JsValue) (url format : string)
    (isAudio : bool) (chatId : Z) (st : BotState) :
  (activeDownloadCount st < maxConcurrentDownloads)%Z ->
  downloadMediaExec now (ExecThrew e) url format isAudio chatId st
  = (mkBotState (activeDownloadCount st + 1) (currentDownloadProcess st)
       (downloads st)
       (effects st ++ [ExecRaised (commandLine format (outputPath now isAudio) url)]),
     MediaRejected e).
Proof.
  intros H. unfold downloadMediaExec.
  destruct (Z.leb_spec maxConcurrentDownloads (activeDownloadCount st)); [lia|].
  reflexivity.
Qed.

Lemma downloadMediaExec_count_le (now : N) (exec : ExecOutcome) (url format : string)
    (isAudio : bool) (chatId : Z) (st : BotState) :
  (activeDownloadCount st <= maxConcurrentDownloads)%Z ->
  (activeDownloadCount (fst (downloadMediaExec now exec url format isAudio chatId st))
   <= maxConcurrentDownloads)%Z.
Proof.
  intros H. unfold downloadMediaExec.
  destruct (Z.leb_spec maxConcurrentDownloads (activeDownloadCount st));
    [|destruct exec]; simpl; lia.
Qed.

(** The counter never exceeds the capacity, whatever the bot is given. *)
Lemma step_count_le (st : BotState) (ev : BotEvent) :
  (activeDownloadCount st <= maxConcurrentDownloads)%Z ->
  (activeDownloadCount (step st ev) <= maxConcurrentDownloads)%Z.
Proof.
  intros H. destruct ev; simpl.
  - unfold onDownloadCommand.
    destruct (_ || _); [done|].
    destruct (isSupportedDomain _) as [[|]|]; try done.
    match goal with
    | |- context [downloadMedia ?n ?c ?u ?f ?a ?i ?s] =>
        pose proof (downloadMedia_count_le n c u f a i s H) as D;
        destruct (downloadMedia n c u f a i s) as [st3 []]
    end; exact D.
  - unfold processEnded, execCallback. destruct (execError t); simpl; lia.
  - destruct r; simpl; done.
  - unfold afterSend. destruct r; [|done].
    unfold unlinkSync. destruct filePath; [|done]. by case_decide.
  - unfold onStop. by destruct (currentDownloadProcess st).
  - unfold onDelete. destruct readdirFailed; [done|]. by case_decide.
  - unfold dailySweep. by destruct readdirFailed.
  - done.
  - unfold onMessage. destruct (text msg); [|done].
    destruct (_ || _); [done|]. by destruct (negb _).
  - unfold onDownloadCommandExec.
    destruct (_ || _); [done|].
    destruct (isSupportedDomain _) as [[|]|]; try done.
    match goal with
    | |- context [downloadMediaExec ?n ?x ?u ?f ?a ?i ?s] =>
        pose proof (downloadMediaExec_count_le n x u f a i s H) as D;
        destruct (downloadMediaExec n x u f a i s) as [st3 []]
    end; exact D.
Qed.

Lemma run_count_le (evs : list BotEvent) (st : BotState) :
  (activeDownloadCount st <= maxConcurrentDownloads)%Z ->
  (activeDownloadCount (run st evs) <= maxConcurrentDownloads)%Z.
Proof.
  revert st. induction evs as [|ev evs IH]; intros st H; [done|].
  apply IH. by apply step_count_le.
Qed.

(** Capacity plus one requests from the idle state: five are given a
    process and the sixth is refused. *)
Lemma six_requests (now : N) (url format : string) (isAudio : bool) (chatId : Z) :
  let '(st, rs) :=
    requests [1; 2; 3; 4; 5; 6]%nat now url format isAudio chatId initialState in
  activeDownloadCount st = 5%Z /\
  map isPromise rs = [true; true; true; true; true; false].
Proof. by split. Qed.

Lemma execCallback_count (error : bool) (stdout stderr filePath : string)
    (st : BotState) :
  activeDownloadCount (fst (execCallback error stdout stderr filePath st))
  = (activeDownloadCount st - 1)%Z.
Proof. unfold execCallback. by destruct error. Qed.

Lemma closeListener_count (st : BotState) :
  activeDownloadCount (closeListener st) = (activeDownloadCount st - 1)%Z.
Proof. reflexivity. Qed.

(** C1, on the code: however the child process ends, its end lowers the
    counter by two, once in the callback of [exec] and once in the [close]
    listener, where the claim has exactly one release per job. *)
Theorem processEnded_releases_twice (t : Termination)
    (stdout stderr filePath : string) (st : BotState) :
  activeDownloadCount (fst (processEnded t stdout stderr filePath st))
  = (activeDownloadCount st - 2)%Z.
Proof.
  unfold processEnded, execCallback. destruct (execError t); simpl; lia.
Qed.

(** C2, on the code: one job started from the idle state and ended leaves
    the counter at minus one, below the bound of zero of the claim. *)
Theorem count_negative_after_one_job (now : N) (child : nat)
    (url format stdout stderr : string) (isAudio : bool) (chatId : Z) :
  activeDownloadCount
    (fst (processEnded ExitedZero stdout stderr (outputPath now isAudio)
            (fst (downloadMedia now child url format isAudio chatId initialState))))
  = (-1)%Z.
Proof. reflexivity. Qed.

(** After the five admitted jobs have ended the counter stands at minus
    five, not at zero. *)
Lemma count_after_five_jobs (now : N) (url format out err : string)
    (isAudio : bool) (chatId : Z) :
  let st := fst (requests [1; 2; 3; 4; 5; 6]%nat now url format isAudio chatId
                   initialState) in
  let ended s := fst (processEnded ExitedZero out err (outputPath now isAudio) s) in
  activeDownloadCount (ended (ended (ended (ended (ended st))))) = (-5)%Z.
Proof. reflexivity. Qed.

(** ** Output paths *)

Lemma app_inj_tail_len (a b x y : string) :
  String.length x = String.length y -> a +:+ x = b +:+ y -> a = b /\ x = y.
Proof.
  revert b. induction a as [|c a IH]; intros [|d b] L E.
  - done.
  - rewrite app_nil_l in E. subst x. rewrite app_cons in L.
    simpl in L. rewrite app_length_str in L. lia.
  - rewrite app_nil_l in E. subst y. rewrite app_cons in L.
    simpl in L. rewrite app_length_str in L. lia.
  - rewrite !app_cons in E. injection E as -> E.
    by destruct (IH b L E) as [-> ->].
Qed.

(** C9, as amended: the output path is the downloads directory, the
    separator, the decimal reading of the clock and the extension; two
    jobs are given the same path exactly when they read the same
    millisecond and have the same extension.  Readings that differ give
    paths that differ; nothing keeps two readings apart. *)
Theorem outputPath_same_iff (now1 now2 : N) (isAudio1 isAudio2 : bool) :
  outputPath now1 isAudio1 = outputPath now2 isAudio2 <->
  now1 = now2 /\ isAudio1 = isAudio2.
Proof.
  split; [|by intros [-> ->]].
  unfold outputPath. intros E.
  apply (inj (String.append downloadsDir)) in E.
  apply (inj (String.append pathSep)) in E.
  apply app_inj_tail_len in E as [P X].
  - split; [by apply (inj pretty) in P|].
    destruct isAudio1, isAudio2; done.
  - by destruct isAudio1, isAudio2.
Qed.

(** ** The stop command *)

(** C7: with no process registered, [/stop] sends the notice that no
    download is in progress and leaves the counter, the registry and the
    downloads directory as they were; with a process registered it sends
    SIGINT to it and empties the registry in the same step, the counter and
    the directory being left to the handlers of the process's end. *)
Theorem onStop_spec (chatId : Z) (st : BotState) :
  (currentDownloadProcess st = None ->
   onStop chatId st =
   mkBotState (activeDownloadCount st) None (downloads st)
     (effects st ++ [SendMessage chatId (VString noDownloadNotice)])) /\
  (forall p, currentDownloadProcess st = Some p ->
   onStop chatId st =
   mkBotState (activeDownloadCount st) None (downloads st)
     (effects st ++ [Kill p "SIGINT"; SendMessage chatId (VString stoppedNotice)])).
Proof.
  unfold onStop. split.
  - intros H. rewrite H. unfold sendMessage, emit. simpl. by rewrite H.
  - intros p H. rewrite H. unfold sendMessage, emit, setProcess. simpl.
    by rewrite <- app_assoc.
Qed.

(** ** Transmission and deletion *)

(** A job whose process exits with code zero hands its output path to the
    transmission. *)
Lemma afterDownload_success (c : Command) (chatId : Z)
    (stdout stderr filePath : string) (st0 st1 : BotState) :
  afterDownload c chatId (snd (processEnded ExitedZero stdout stderr filePath st0)) st1
  = (transmit c chatId (Some filePath) st1, AwaitSend (Some filePath)).
Proof. reflexivity. Qed.

(** C8: for a downloaded file that is on disk when the transmission
    settles, a transmission that succeeds is followed by the deletion of
    the file and by no notice; a transmission that fails leaves the
    directory as it is, the file included, and sends one notice, the
    reason of the failure or the fixed failure text when the reason is
    empty. *)
Theorem afterSend_cleanup (chatId : Z) (filePath : string) (st : BotState) :
  filePath ∈ downloads st ->
  (afterSend chatId (Some filePath) (Normal ()) st
   = setDownloads (downloads st ∖ {[filePath]}) st /\
   filePath ∉ downloads (afterSend chatId (Some filePath) (Normal ()) st)) /\
  (forall e,
   afterSend chatId (Some filePath) (Throw e) st
   = sendMessage chatId (orElse e downloadFailedNotice) st /\
   downloads (afterSend chatId (Some filePath) (Throw e) st) = downloads st /\
   filePath ∈ downloads (afterSend chatId (Some filePath) (Throw e) st)).
Proof.
  intros H. split.
  - unfold afterSend, unlinkSync. rewrite decide_True by done.
    split; [reflexivity|]. simpl. apply not_elem_of_difference. right.
    by apply elem_of_singleton.
  - intros e. by repeat split.
Qed.

(** ** Notices of a download request *)

(** The failure text built from the error stream is never empty, so it is
    the notice that the [catch] block sends. *)
Lemma execCallback_failure_notice (stdout stderr filePath : string) (st : BotState) :
  exists text,
    snd (execCallback true stdout stderr filePath st) = RejectedWith (VString text) /\
    text = "❌ Download error: " +:+ stderr /\
    orElse (VString text) downloadFailedNotice = VString text.
Proof. eexists. repeat split. Qed.

(** C6, as amended: a request rejected by validation sends one notice and
    ends; a request that passes validation sends one progress notice, after
    which the admission check at capacity sends the queue-full notice once
    and starts no process, leaving counter and registry as they were; an
    admitted job that fails is followed by one failure notice, a failed
    transmission by one failure notice, and a delivered file by no further
    notice. *)
Theorem request_notices (c : Command) (chatId : Z) (arg : string)
    (now : N) (child : nat) (st : BotState) :
  (((trim arg =? "")%string || negb (startsWith (trim arg) "http")) = true ->
   onDownloadCommand c chatId arg now child st
   = (sendMessage chatId (VString invalidUrlNotice) st, Finished)) /\
  (((trim arg =? "")%string || negb (startsWith (trim arg) "http")) = false ->
   isSupportedDomain (normalizeUrl (trim arg)) = Normal false ->
   onDownloadCommand c chatId arg now child st
   = (sendMessage chatId (VString unsupportedNotice) st, Finished)) /\
  (validRequest arg ->
   (maxConcurrentDownloads <= activeDownloadCount st)%Z ->
   onDownloadCommand c chatId arg now child st
   = (mkBotState (activeDownloadCount st) (currentDownloadProcess st) (downloads st)
        (effects st ++
         [SendMessage chatId (VString (downloadingNotice c));
          LogUserAction chatId (commandName c +:+ " " +:+ normalizeUrl (trim arg));
          SendMessage chatId (VString queueFullNotice)]),
      AwaitValue)) /\
  (validRequest arg ->
   (activeDownloadCount st < maxConcurrentDownloads)%Z ->
   onDownloadCommand c chatId arg now child st
   = (mkBotState (activeDownloadCount st + 1) (Some child) (downloads st)
        (effects st ++
         [SendMessage chatId (VString (downloadingNotice c));
          LogUserAction chatId (commandName c +:+ " " +:+ normalizeUrl (trim arg));
          Spawn child (commandLine (formatOf c)
                         (outputPath now (isAudioOf c)) (normalizeUrl (trim arg)))]),
      AwaitDownload child (outputPath now (isAudioOf c)))) /\
  (forall e s,
   afterDownload c chatId (RejectedWith e) s
   = (sendMessage chatId (orElse e downloadFailedNotice) s, Finished)) /\
  (forall p e s,
   afterSend chatId p (Throw e) s
   = sendMessage chatId (orElse e downloadFailedNotice) s) /\
  (forall p s, p ∈ downloads s ->
   effects (afterSend chatId (Some p) (Normal ()) s) = effects s).
Proof.
  repeat split.
  - intros H. unfold onDownloadCommand. by rewrite H.
  - intros H1 H2. unfold onDownloadCommand. by rewrite H1, H2.
  - intros [H1 H2] Hc. unfold onDownloadCommand. rewrite H1, H2.
    rewrite downloadMedia_at_capacity by done.
    unfold sendMessage, logUserAction, emit. simpl.
    by rewrite <- !app_assoc.
  - intros [H1 H2] Hc. unfold onDownloadCommand. rewrite H1, H2.
    rewrite downloadMedia_below_capacity by done.
    unfold sendMessage, logUserAction, emit. simpl.
    by rewrite <- !app_assoc.
  - intros p s Hp. unfold afterSend, unlinkSync. by rewrite decide_True.
Qed.

(** ** The handler of every message *)

(** C10: on a message without text the handler throws and sends nothing;
    on a text that, lowered and trimmed, is neither a greeting nor begins
    with a slash, it sends the invalid-command notice once and does nothing
    else. *)
Theorem onMessage_spec (msg : Message) (st : BotState) :
  (text msg = None -> exists e, onMessage msg st = Throw e) /\
  (forall t, text msg = Some t ->
   trim (toLowerCase t) <> "hi" ->
   trim (toLowerCase t) <> "hello" ->
   startsWith (trim (toLowerCase t)) "/" = false ->
   onMessage msg st
   = Normal (mkBotState (activeDownloadCount st) (currentDownloadProcess st)
               (downloads st)
               (effects st ++ [SendMessage (chat_id msg) (VString invalidCommandNotice)]))).
Proof.
  unfold onMessage. split.
  - intros ->. eauto.
  - intros t -> H1 H2 H3.
    apply String.eqb_neq in H1, H2. by rewrite H1, H2, H3.
Qed.

(** ** Further facts: URL normalisation *)

Lemma before_prefix (s sep : string) : exists t, s = before s sep +:+ t.
Proof.
  unfold before. destruct (break_at s sep) as [[a b]|] eqn:B.
  - exists (sep +:+ b). by apply break_at_Some.
  - exists "". by rewrite app_nil_r.
Qed.

Lemma includes_app_l (a b p : string) :
  includes a p = true -> includes (a +:+ b) p = true.
Proof.
  intros H. apply includes_inv in H as (x & y & ->).
  rewrite !app_assoc_str. apply includes_intro.
Qed.

Lemma before_keeps_excluded (s sep p : string) :
  includes s p = false -> includes (before s sep) p = false.
Proof.
  intros H. destruct (includes (before s sep) p) eqn:I; [|reflexivity].
  destruct (before_prefix s sep) as [t E].
  apply (includes_app_l _ t) in I. rewrite <- E in I. congruence.
Qed.

(** The watch prefix brings no shorts marker with it. *)
Lemma watchPrefix_marker (id : string) :
  includes (watchPrefix +:+ id) shortsMarker = includes id shortsMarker.
Proof. reflexivity. Qed.

(** X1: [normalizeUrl] is idempotent: its result never holds the shorts
    marker again, so normalising it once more changes nothing. *)
Theorem normalizeUrl_idempotent (url : string) :
  normalizeUrl (normalizeUrl url) = normalizeUrl url.
Proof.
  destruct (includes url shortsMarker) eqn:H.
  - destruct (normalizeUrl_marker url H) as (pre & rest & _ & E).
    rewrite E. unfold normalizeUrl at 1.
    rewrite watchPrefix_marker.
    destruct (includes (before (before rest "/shorts/") "?") shortsMarker) eqn:I;
      [|reflexivity].
    apply includes_marker_shorts in I.
    rewrite before_keeps_excluded in I; [discriminate|].
    by apply before_excludes.
  - unfold normalizeUrl. by rewrite !H.
Qed.

(** ** Further facts: admission *)


(** X3: from the idle state the counter never exceeds the capacity,
    whatever events the bot is given and in whatever order. *)
Theorem idle_run_count_le (evs : list BotEvent) :
  (activeDownloadCount (run initialState evs) <= maxConcurrentDownloads)%Z.
Proof. apply run_count_le. simpl. unfold maxConcurrentDownloads. lia. Qed.

Lemma execCalls_emit (e : Effect) (st : BotState) :
  execCalls (emit e st) = (execCalls st + if isExecCall e then 1 else 0)%Z.
Proof.
  unfold execCalls, emit. simpl. rewrite filter_app, length_app.
  assert (length (filter isExecCall [e]) = if isExecCall e then 1%nat else 0%nat)
    as -> by (by destruct e).
  destruct (isExecCall e); lia.
Qed.

Lemma downloadMediaExec_accounting (now : N) (exec : ExecOutcome)
    (url format : string) (isAudio : bool) (chatId : Z) (st : BotState) :
  let st' := fst (downloadMediaExec now exec url format isAudio chatId st) in
  (activeDownloadCount st' - execCalls st'
   = activeDownloadCount st - execCalls st)%Z.
Proof.
  unfold downloadMediaExec.
  destruct (Z.leb_spec maxConcurrentDownloads (activeDownloadCount st)) as [H|H].
  - simpl. unfold sendMessage. rewrite execCalls_emit. simpl. lia.
  - destruct exec; simpl; unfold execCalls; simpl;
      rewrite filter_app, length_app; simpl; lia.
Qed.

Ltac account :=
  unfold execCalls, sendMessage, logUserAction, catchHandler, transmit, emit,
    setProcess, setCount, setDownloads;
  simpl; rewrite ?filter_app, ?length_app; simpl; try lia.

Lemma onDownloadCommandExec_accounting (c : Command) (chatId : Z) (arg : string)
    (now : N) (exec : ExecOutcome) (st : BotState) :
  let st' := fst (onDownloadCommandExec c chatId arg now exec st) in
  (activeDownloadCount st' - execCalls st'
   = activeDownloadCount st - execCalls st)%Z.
Proof.
  unfold onDownloadCommandExec.
  destruct (_ || _); simpl; [account|].
  destruct (isSupportedDomain _) as [[|]|]; simpl; [|account|lia].
  match goal with
  | |- context [downloadMediaExec ?n ?x ?u ?f ?a ?i ?s] =>
      pose proof (downloadMediaExec_accounting n x u f a i s) as D;
      destruct (downloadMediaExec n x u f a i s) as [st3 []]
  end; simpl in *; rewrite D; account.
Qed.

Lemma step_accounting (st : BotState) (ev : BotEvent) :
  (activeDownloadCount (step st ev) - execCalls (step st ev)
   = activeDownloadCount st - execCalls st - if isProcessEnd ev then 2 else 0)%Z.
Proof.
  destruct ev; simpl.
  - rewrite <- onDownloadCommandExec_started.
    rewrite onDownloadCommandExec_accounting. lia.
  - unfold processEnded, execCallback. destruct (execError t); account.
  - destruct r; simpl; [unfold transmit; destruct (isAudioOf c)|]; account.
  - unfold afterSend. destruct r; [|account].
    unfold unlinkSync. destruct filePath; [case_decide|]; account.
  - unfold onStop. destruct (currentDownloadProcess st); account.
  - unfold onDelete. destruct readdirFailed; [|case_decide]; account.
  - unfold dailySweep. destruct readdirFailed; account.
  - account.
  - unfold onMessage. destruct (text msg); [|lia].
    destruct (_ || _); [account|]. destruct (negb _); [account|lia].
  - rewrite onDownloadCommandExec_accounting. lia.
Qed.

(** X4: along every run the counter is its starting value plus the number
    of calls of [exec] made, whether the call started a process or threw,
    minus twice the number of process ends. *)
Theorem run_accounting (evs : list BotEvent) (st : BotState) :
  activeDownloadCount (run st evs)
  = (activeDownloadCount st + (execCalls (run st evs) - execCalls st)
     - 2 * endedIn evs)%Z.
Proof.
  revert st. induction evs as [|ev evs IH]; intros st.
  - unfold endedIn. simpl. lia.
  - change (run st (ev :: evs)) with (run (step st ev) evs).
    rewrite IH. pose proof (step_accounting st ev) as A.
    unfold endedIn in *. simpl.
    destruct (isProcessEnd ev) eqn:E.
    + rewrite filter_cons_True by (simpl; by rewrite E). simpl length. lia.
    + rewrite filter_cons_False by (simpl; rewrite E; intros []). lia.
Qed.

(** ** Further facts: the single registry slot *)

(** X5: the registry holds the process started last.  With two jobs
    running, [/stop] signals the second one only and empties the registry;
    the first job stays out of reach, a second [/stop] reporting that no
    download is in progress. *)
Theorem stop_reaches_latest_job (st : BotState) (a b : nat) (now1 now2 : N)
    (url1 url2 format1 format2 : string) (isAudio1 isAudio2 : bool)
    (chat1 chat2 chatId chatId' : Z) :
  (activeDownloadCount st + 1 < maxConcurrentDownloads)%Z ->
  let st1 := fst (downloadMedia now1 a url1 format1 isAudio1 chat1 st) in
  let st2 := fst (downloadMedia now2 b url2 format2 isAudio2 chat2 st1) in
  effects st2
  = (effects st ++
     [Spawn a (commandLine format1 (outputPath now1 isAudio1) url1);
      Spawn b (commandLine format2 (outputPath now2 isAudio2) url2)])%list /\
  currentDownloadProcess st2 = Some b /\
  effects (onStop chatId st2)
  = (effects st2 ++ [Kill b "SIGINT"; SendMessage chatId (VString stoppedNotice)])%list /\
  onStop chatId' (onStop chatId st2)
  = sendMessage chatId' (VString noDownloadNotice) (onStop chatId st2).
Proof.
  intros H st1 st2. subst st1 st2.
  rewrite (downloadMedia_below_capacity now1) by lia. simpl.
  rewrite downloadMedia_below_capacity by (simpl; lia). simpl.
  repeat split; by rewrite <- ?app_assoc.
Qed.

(** X6: the end of any job empties the registry, whichever process it
    holds.  With two jobs running, once the first has ended [/stop] finds
    the registry empty: it reports that no download is in progress and
    sends no signal, although the second job is still running. *)
Theorem stop_after_other_job_ended (st : BotState) (a b : nat) (now1 now2 : N)
    (url1 url2 format1 format2 stdout stderr : string) (isAudio1 isAudio2 : bool)
    (chat1 chat2 chatId : Z) (t : Termination) :
  (activeDownloadCount st + 1 < maxConcurrentDownloads)%Z ->
  let st1 := fst (downloadMedia now1 a url1 format1 isAudio1 chat1 st) in
  let st2 := fst (downloadMedia now2 b url2 format2 isAudio2 chat2 st1) in
  let st3 := fst (processEnded t stdout stderr (outputPath now1 isAudio1) st2) in
  currentDownloadProcess st2 = Some b /\
  currentDownloadProcess st3 = None /\
  onStop chatId st3 = sendMessage chatId (VString noDownloadNotice) st3.
Proof.
  intros H st1 st2 st3. subst st1 st2 st3.
  rewrite (downloadMedia_below_capacity now1) by lia. simpl.
  rewrite downloadMedia_below_capacity by (simpl; lia).
  unfold processEnded, execCallback. by destruct (execError t).
Qed.

(** ** Further facts: failure notices *)

(** X7: when the process of a job ends with an error that reaches the
    callback of [exec] (a non-zero exit, a kill, a spawn failure that the
    child reports), the notice sent to the requester is the download-error
    text followed by the error stream, also when the error stream is
    empty.  When [exec] throws at the call, the promise is rejected with
    the error thrown and the notice is that error itself.  The fixed
    failure text is used in neither case. *)
Theorem failed_job_notice (c : Command) (chatId : Z) (t : Termination)
    (stdout stderr filePath : string) (st0 st : BotState)
    (now : N) (name message url format : string) (isAudio : bool) :
  (execError t = true ->
   afterDownload c chatId (snd (processEnded t stdout stderr filePath st0)) st
   = (sendMessage chatId (VString ("❌ Download error: " +:+ stderr)) st, Finished)) /\
  ((activeDownloadCount st0 < maxConcurrentDownloads)%Z ->
   snd (downloadMediaExec now (ExecThrew (VError name message)) url format isAudio
          chatId st0)
   = MediaRejected (VError name message) /\
   afterDownload c chatId (RejectedWith (VError name message)) st
   = (sendMessage chatId (VError name message) st, Finished)).
Proof.
  split.
  - intros H. unfold processEnded, execCallback. by rewrite H.
  - intros H. by rewrite downloadMediaExec_thrown.
Qed.

Lemma afterSend_missing (chatId : Z) (filePath : string) (st : BotState) :
  filePath ∉ downloads st ->
  afterSend chatId (Some filePath) (Normal ()) st
  = sendMessage chatId
      (VError "Error" "ENOENT: no such file or directory, unlink") st.
Proof.
  intros H. unfold afterSend, unlinkSync. by rewrite decide_False.
Qed.

(** X8: when the transmission has succeeded and the output file is no
    longer in the directory, the deletion throws and the requester is sent
    the error as a failure notice, the file having been delivered; nothing
    else changes. *)
Theorem afterSend_file_gone (chatId : Z) (filePath : string) (st : BotState) :
  filePath ∉ downloads st ->
  afterSend chatId (Some filePath) (Normal ()) st
  = mkBotState (activeDownloadCount st) (currentDownloadProcess st) (downloads st)
      (effects st ++
       [SendMessage chatId
          (VError "Error" "ENOENT: no such file or directory, unlink")]).
Proof. intros H. by rewrite afterSend_missing. Qed.

(** X9: a [/delete] or a daily sweep that runs between the end of a
    download and the end of its transmission takes the output file away:
    the transmission that then succeeds is followed by a failure notice. *)
Theorem cleanup_after_delete (chat1 chat2 : Z) (filePath : string) (st : BotState) :
  afterSend chat2 (Some filePath) (Normal ()) (onDelete chat1 false st)
  = sendMessage chat2 (VError "Error" "ENOENT: no such file or directory, unlink")
      (onDelete chat1 false st) /\
  afterSend chat2 (Some filePath) (Normal ()) (dailySweep false st)
  = sendMessage chat2 (VError "Error" "ENOENT: no such file or directory, unlink")
      (dailySweep false st).
Proof.
  split; apply afterSend_missing.
  - unfold onDelete. case_decide as E; simpl; [rewrite E|]; apply not_elem_of_empty.
  - simpl. apply not_elem_of_empty.
Qed.

(** ** Further facts: emptying the downloads directory *)

Lemma setDownloads_same (st : BotState) : setDownloads (downloads st) st = st.
Proof. by destruct st. Qed.

(** On names that are all in the directory, each listed once, the loop
    removes them and throws nothing. *)
Lemma unlinkEach_present (files : list string) (st : BotState) :
  NoDup ((fun file => downloadsDir +:+ pathSep +:+ file) <$> files) ->
  (forall file, file ∈ files -> downloadsDir +:+ pathSep +:+ file ∈ downloads st) ->
  unlinkEach files st
  = (setDownloads
       (downloads st
        ∖ list_to_set ((fun file => downloadsDir +:+ pathSep +:+ file) <$> files)) st,
     None).
Proof.
  revert st. induction files as [|f rest IH]; intros st ND All.
  - simpl. rewrite difference_empty_L. by rewrite setDownloads_same.
  - rewrite fmap_cons in ND. apply NoDup_cons in ND as [Nin ND].
    cbn [unlinkEach]. unfold unlinkSync.
    rewrite decide_True by (apply All; left).
    rewrite IH; [|done|].
    + unfold setDownloads. simpl. do 2 f_equal.
      by rewrite difference_difference_l_L.
    + intros g Hg. simpl. apply elem_of_difference. split.
      * apply All. by right.
      * intros E%elem_of_singleton. apply Nin. rewrite <- E.
        by apply (list_elem_of_fmap_2 (fun file => downloadsDir +:+ pathSep +:+ file)).
Qed.

(** The loop sends nothing, leaves counter and registry alone and only
    ever removes files. *)
Lemma unlinkEach_frame (files : list string) (st : BotState) :
  effects (fst (unlinkEach files st)) = effects st /\
  activeDownloadCount (fst (unlinkEach files st)) = activeDownloadCount st /\
  currentDownloadProcess (fst (unlinkEach files st)) = currentDownloadProcess st /\
  downloads (fst (unlinkEach files st)) ⊆ downloads st.
Proof.
  revert st. induction files as [|f rest IH]; intros st; [done|].
  cbn [unlinkEach]. unfold unlinkSync. case_decide; [|done].
  destruct (IH (setDownloads (downloads st ∖ {[downloadsDir +:+ pathSep +:+ f]}) st))
    as (E & C & P & D).
  repeat split; [by rewrite E|by rewrite C|by rewrite P|].
  etrans; [exact D|]. simpl. apply subseteq_difference_l. reflexivity.
Qed.

Lemma unlinkEach_missing (files : list string) (st : BotState) (file : string) :
  file ∈ files ->
  downloadsDir +:+ pathSep +:+ file ∉ downloads st ->
  exists e, snd (unlinkEach files st) = Some e.
Proof.
  revert st. induction files as [|f rest IH]; intros st In Missing.
  - by apply elem_of_nil in In.
  - cbn [unlinkEach]. unfold unlinkSync. case_decide as Hf; [|eauto].
    apply elem_of_cons in In as [->|In]; [done|].
    apply IH; [done|]. simpl. intros [? _]%elem_of_difference. done.
Qed.

Lemma freshListing_present (files : list string) (st : BotState) :
  freshListing files st ->
  NoDup ((fun file => downloadsDir +:+ pathSep +:+ file) <$> files) /\
  (forall file, file ∈ files -> downloadsDir +:+ pathSep +:+ file ∈ downloads st) /\
  list_to_set ((fun file => downloadsDir +:+ pathSep +:+ file) <$> files)
  = downloads st.
Proof.
  unfold freshListing. intros F. repeat split.
  - rewrite F. apply NoDup_elements.
  - intros f Hf. apply elem_of_elements. rewrite <- F.
    by apply (list_elem_of_fmap_2 (fun file => downloadsDir +:+ pathSep +:+ file)).
  - apply set_eq. intros x. rewrite elem_of_list_to_set, F. apply elem_of_elements.
Qed.

Lemma freshListing_empty (files : list string) (st : BotState) :
  freshListing files st -> (files = [] <-> downloads st = ∅).
Proof.
  unfold freshListing. intros F. split.
  - intros ->. simpl in F. apply Permutation_nil in F.
    apply leibniz_equiv. by apply elements_empty_iff.
  - intros E. rewrite E, elements_empty in F. symmetry in F.
    apply Permutation_nil in F. by apply fmap_nil_inv in F.
Qed.

(** With an up-to-date listing the callback of [/delete] does what
    [onDelete] does. *)
Lemma deleteCallback_onDelete (chatId : Z) (files : list string) (st : BotState) :
  freshListing files st ->
  deleteCallback chatId false files st = (onDelete chatId false st, None).
Proof.
  intros F. pose proof (freshListing_empty files st F) as Em.
  destruct (freshListing_present files st F) as (ND & All & L).
  unfold deleteCallback, onDelete.
  destruct files as [|f rest].
  - by rewrite decide_True by (by apply Em).
  - rewrite decide_False by (intros E; by apply Em in E). simpl Nat.eqb. cbv iota.
    by rewrite unlinkEach_present, L, difference_diag_L.
Qed.

(** X10: given an up-to-date listing, the callback of [/delete] throws
    nothing and sends exactly one notice: on an empty directory the notice
    that there are no files to delete, nothing else changing; on a
    directory with files the notice that all files have been deleted, the
    directory being empty afterwards. *)
Theorem deleteCallback_fresh (chatId : Z) (files : list string) (st : BotState) :
  freshListing files st ->
  (downloads st = ∅ ->
   deleteCallback chatId false files st
   = (mkBotState (activeDownloadCount st) (currentDownloadProcess st) (downloads st)
        (effects st ++ [SendMessage chatId (VString "⚠️ No files to delete.")]),
      None)) /\
  (downloads st <> ∅ ->
   deleteCallback chatId false files st
   = (mkBotState (activeDownloadCount st) (currentDownloadProcess st) ∅
        (effects st ++
         [SendMessage chatId (VString "🗑️ All downloaded files have been deleted.")]),
      None)).
Proof.
  intros F. rewrite (deleteCallback_onDelete chatId files st F).
  unfold onDelete. split; intros E.
  - by rewrite decide_True.
  - by rewrite decide_False.
Qed.

(** X11: when the listing names a file that is not in the directory any
    more, the loop of [/delete] throws out of the callback: no notice is
    sent, and the files listed before the missing one are gone. *)
Theorem deleteCallback_stale (chatId : Z) (files : list string) (file : string)
    (st : BotState) :
  file ∈ files ->
  downloadsDir +:+ pathSep +:+ file ∉ downloads st ->
  exists st' e,
    deleteCallback chatId false files st = (st', Some e) /\
    effects st' = effects st /\
    downloads st' ⊆ downloads st.
Proof.
  intros In Missing. unfold deleteCallback.
  destruct files as [|f rest]; [by apply elem_of_nil in In|].
  simpl Nat.eqb. cbv iota.
  destruct (unlinkEach_missing (f :: rest) st file In Missing) as [e He].
  destruct (unlinkEach_frame (f :: rest) st) as (E & _ & _ & D).
  destruct (unlinkEach (f :: rest) st) as [st' r]. simpl in *. subst r.
  by exists st', e.
Qed.

(** X12: the daily sweep sends no message and leaves counter and registry
    alone whatever listing it is given; given an up-to-date listing it
    empties the directory and throws nothing. *)
Theorem sweepCallback_spec (err : bool) (files : list string) (st : BotState) :
  effects (fst (sweepCallback err files st)) = effects st /\
  activeDownloadCount (fst (sweepCallback err files st)) = activeDownloadCount st /\
  currentDownloadProcess (fst (sweepCallback err files st))
  = currentDownloadProcess st /\
  (freshListing files st ->
   sweepCallback false files st = (dailySweep false st, None) /\
   downloads (dailySweep false st) = ∅).
Proof.
  unfold sweepCallback.
  destruct (unlinkEach_frame files st) as (E & C & P & _).
  split; [by destruct err|]. split; [by destruct err|]. split; [by destruct err|].
  intros F. destruct (freshListing_present files st F) as (ND & All & L).
  split; [|reflexivity].
  by rewrite unlinkEach_present, L, difference_diag_L.
Qed.

(** ** Further facts: the command patterns *)

Lemma noLineBreak_app (a b : string) :
  noLineBreak (a +:+ b) = noLineBreak a && noLineBreak b.
Proof.
  induction a as [|c a IH]; [reflexivity|].
  rewrite app_cons. unfold noLineBreak in *. simpl. by rewrite IH, andb_assoc.
Qed.

Lemma startsWith_app_l (a b w : string) :
  startsWith a w = true -> startsWith (a +:+ b) w = true.
Proof.
  intros H. apply startsWith_inv in H. rewrite H, app_assoc_str.
  apply startsWith_app.
Qed.

Lemma lineTerminatorAt_app_l (a b : string) :
  lineTerminatorAt a = true -> lineTerminatorAt (a +:+ b) = true.
Proof.
  unfold lineTerminatorAt. intros (t & I & H)%existsb_exists.
  apply existsb_exists. exists t. split; [done|]. by apply startsWith_app_l.
Qed.

Lemma dotRun_split (s : string) :
  exists post,
    s = dotRun s +:+ post /\ (post = "" \/ lineTerminatorAt post = true).
Proof.
  induction s as [|c s (post & E & P)]; cbn [dotRun].
  - exists "". split; [reflexivity|by left].
  - destruct (lineTerminatorAt (String c s)) eqn:T.
    + exists (String c s). split; [reflexivity|by right].
    + exists post. split; [|done]. rewrite app_cons. by f_equal.
Qed.

Lemma dotRun_oneLine (s : string) : oneLine (dotRun s) = true.
Proof.
  induction s as [|c s IH]; [reflexivity|]. cbn [dotRun].
  destruct (lineTerminatorAt (String c s)) eqn:T; [reflexivity|].
  cbn [oneLine]. rewrite IH, andb_true_r. apply negb_true_iff.
  destruct (lineTerminatorAt (String c (dotRun s))) eqn:T'; [|reflexivity].
  destruct (dotRun_split s) as (post & E & _).
  apply (lineTerminatorAt_app_l _ post) in T'.
  rewrite app_cons, <- E in T'. congruence.
Qed.

Lemma dotRun_line (u : string) : oneLine u = true -> dotRun u = u.
Proof.
  induction u as [|c u IH]; [reflexivity|].
  cbn [oneLine dotRun]. intros [T H]%andb_true_iff.
  apply negb_true_iff in T. rewrite T. f_equal. by apply IH.
Qed.

Lemma dotPlus_Some (s arg : string) :
  dotPlus s = Some arg -> arg = dotRun s /\ arg <> "".
Proof.
  unfold dotPlus. destruct (dotRun s); [discriminate|]. by intros [= <-].
Qed.

Lemma dotPlus_line (u : string) :
  u <> "" -> oneLine u = true -> dotPlus u = Some u.
Proof.
  intros N L. unfold dotPlus. rewrite dotRun_line by done. by destruct u.
Qed.

Lemma downloadPatternHere_sound (s : string) (c : Command) (arg : string) :
  downloadPatternHere s = Some (c, arg) ->
  (c = Audio \/ c = Video) /\ arg <> "" /\ oneLine arg = true /\
  exists post,
    s = "/" +:+ commandName c +:+ " " +:+ arg +:+ post /\
    (post = "" \/ lineTerminatorAt post = true).
Proof.
  unfold downloadPatternHere.
  destruct (startsWith s "/audio ") eqn:A; [|destruct (startsWith s "/video ") eqn:V].
  - destruct (dotPlus (slice 7 s)) as [a|] eqn:D; [|discriminate].
    intros [= <- <-]. apply dotPlus_Some in D as [-> N].
    split; [by left|]. split; [done|]. split; [apply dotRun_oneLine|].
    destruct (dotRun_split (slice 7 s)) as (post & E & P).
    exists post. split; [|done].
    apply startsWith_inv in A. rewrite A at 1. simpl String.length.
    rewrite E at 1. reflexivity.
  - destruct (dotPlus (slice 7 s)) as [a|] eqn:D; [|discriminate].
    intros [= <- <-]. apply dotPlus_Some in D as [-> N].
    split; [by right|]. split; [done|]. split; [apply dotRun_oneLine|].
    destruct (dotRun_split (slice 7 s)) as (post & E & P).
    exists post. split; [|done].
    apply startsWith_inv in V. rewrite V at 1. simpl String.length.
    rewrite E at 1. reflexivity.
  - discriminate.
Qed.

(** X13: whatever text matches the pattern of the audio and video handler,
    the handler is given a command that is audio or video and an argument
    that is not empty, holds no line terminator (line feed, carriage
    return, U+2028, U+2029) and stands in the text right after the slash,
    the command word and one space, up to the end of the line: what
    follows it is nothing or begins with a line terminator. *)
Theorem downloadPatternExec_sound (text : string) (c : Command) (arg : string) :
  downloadPatternExec text = Some (c, arg) ->
  (c = Audio \/ c = Video) /\ arg <> "" /\ oneLine arg = true /\
  exists pre post,
    text = pre +:+ "/" +:+ commandName c +:+ " " +:+ arg +:+ post /\
    (post = "" \/ lineTerminatorAt post = true).
Proof.
  induction text as [|ch text IH]; cbn [downloadPatternExec].
  - destruct (downloadPatternHere "") as [[c' a']|] eqn:H; [|discriminate].
    intros [= -> ->]. apply downloadPatternHere_sound in H as (C & N & L & post & E & P).
    split; [done|]. split; [done|]. split; [done|]. by exists "", post.
  - destruct (downloadPatternHere (String ch text)) as [[c' a']|] eqn:H.
    + intros [= -> ->].
      apply downloadPatternHere_sound in H as (C & N & L & post & E & P).
      split; [done|]. split; [done|]. split; [done|]. by exists "", post.
    + intros M. destruct (IH M) as (C & N & L & pre & post & E & P).
      split; [done|]. split; [done|]. split; [done|].
      exists (String ch pre), post.
      split; [|done]. rewrite app_cons. by f_equal.
Qed.

Lemma downloadPatternExec_here (s : string) (r : Command * string) :
  downloadPatternHere s = Some r -> downloadPatternExec s = Some r.
Proof. intros H. destruct s; cbn [downloadPatternExec]; by rewrite H. Qed.

Lemma mutePatternExec_here (s r : string) :
  mutePatternHere s = Some r -> mutePatternExec s = Some r.
Proof. intros H. destruct s; cbn [mutePatternExec]; by rewrite H. Qed.

(** X14: a message that is the command, one space and an argument that is
    not empty and holds no line terminator (line feed, carriage return,
    U+2028, U+2029) is matched by the pattern of its own handler, which
    receives the argument whole. *)
Theorem command_patterns_plain (u : string) :
  u <> "" -> oneLine u = true ->
  downloadPatternExec ("/audio " +:+ u) = Some (Audio, u) /\
  downloadPatternExec ("/video " +:+ u) = Some (Video, u) /\
  mutePatternExec ("/mute-video " +:+ u) = Some u.
Proof.
  intros N L. repeat split.
  - apply downloadPatternExec_here. unfold downloadPatternHere.
    rewrite startsWith_app.
    change 7%nat with (String.length "/audio "). rewrite slice_app.
    by rewrite dotPlus_line.
  - apply downloadPatternExec_here. unfold downloadPatternHere.
    change (startsWith ("/video " +:+ u) "/audio ") with false. cbv iota.
    rewrite startsWith_app.
    change 7%nat with (String.length "/video "). rewrite slice_app.
    by rewrite dotPlus_line.
  - apply mutePatternExec_here. unfold mutePatternHere.
    rewrite startsWith_app.
    change 12%nat with (String.length "/mute-video "). rewrite slice_app.
    by apply dotPlus_line.
Qed.

Lemma downloadPatternExec_none (s : string) :
  includes s "/audio " = false -> includes s "/video " = false ->
  downloadPatternExec s = None.
Proof.
  induction s as [|c s IH]; [done|].
  cbn [includes downloadPatternExec].
  intros [A1 A2]%orb_false_iff [V1 V2]%orb_false_iff.
  unfold downloadPatternHere. rewrite A1, V1. by apply IH.
Qed.

Lemma mutePatternExec_none (s : string) :
  includes s "/mute-video " = false -> mutePatternExec s = None.
Proof.
  induction s as [|c s IH]; [done|].
  cbn [includes mutePatternExec].
  intros [M1 M2]%orb_false_iff.
  unfold mutePatternHere. rewrite M1. by apply IH.
Qed.

(** X15: the patterns of the two download handlers do not overlap on their
    own command words: a mute-video command whose argument holds neither
    of the other two commands is not matched by the audio and video
    pattern, and an audio or video command whose argument holds no
    mute-video command is not matched by the mute-video pattern. *)
Theorem command_patterns_apart (u : string) :
  (includes u "/audio " = false -> includes u "/video " = false ->
   downloadPatternExec ("/mute-video " +:+ u) = None) /\
  (includes u "/mute-video " = false ->
   mutePatternExec ("/audio " +:+ u) = None /\
   mutePatternExec ("/video " +:+ u) = None).
Proof.
  split.
  - intros A V. apply downloadPatternExec_none.
    + change (includes ("/mute-video " +:+ u) "/audio ") with (includes u "/audio ").
      done.
    + change (includes ("/mute-video " +:+ u) "/video ") with (includes u "/video ").
      done.
  - intros M. split; apply mutePatternExec_none.
    + change (includes ("/audio " +:+ u) "/mute-video ")
        with (includes u "/mute-video "). done.
    + change (includes ("/video " +:+ u) "/mute-video ")
        with (includes u "/mute-video "). done.
Qed.

(** ** Further facts: the action log *)

Lemma quoteJSONChar_noLineBreak (c : Ascii.ascii) :
  noLineBreak (quoteJSONChar c) = true.
Proof. by destruct c as [[] [] [] [] [] [] [] []]. Qed.

Lemma quoteJSON_noLineBreak (s : string) : noLineBreak (quoteJSON s) = true.
Proof.
  unfold quoteJSON. rewrite !noLineBreak_app.
  assert (noLineBreak (quoteJSONBody s) = true) as ->; [|reflexivity].
  induction s as [|c s IH]; [reflexivity|]. simpl.
  by rewrite noLineBreak_app, quoteJSONChar_noLineBreak, IH.
Qed.

Lemma pretty_N_go_noLineBreak (x : N) (s : string) :
  noLineBreak s = true -> noLineBreak (pretty_N_go x s) = true.
Proof.
  revert s. induction (N.lt_wf_0 x) as [x _ IH]; intros s H.
  assert (x = 0 \/ 0 < x)%N as [->|Hx] by lia.
  - by rewrite pretty_N_go_0.
  - rewrite pretty_N_go_step by done. apply IH; [by apply N.div_lt|].
    unfold pretty_N_char. by repeat case_match.
Qed.

Lemma pretty_Z_noLineBreak (z : Z) : noLineBreak (pretty z) = true.
Proof.
  assert (forall n : N, noLineBreak (pretty n) = true) as HN.
  { intros n. unfold pretty, pretty_N. case_decide; [reflexivity|].
    by apply pretty_N_go_noLineBreak. }
  destruct z as [|p|p]; [reflexivity|apply (HN (Npos p))|].
  unfold pretty, pretty_Z. rewrite noLineBreak_app. simpl. apply (HN (Npos p)).
Qed.

(** X16: the record that [logUserAction] writes holds no line break,
    whatever the action text and the time stamp are: each call adds one
    line to the log, the line ending being the only break in what is
    appended. *)
Theorem logRecord_one_line (chatId : Z) (action timestamp eol : string) :
  noLineBreak (logRecord chatId action timestamp) = true /\
  logLine chatId action timestamp eol = logRecord chatId action timestamp +:+ eol.
Proof.
  split; [|reflexivity]. unfold logRecord.
  rewrite !noLineBreak_app, !quoteJSON_noLineBreak, pretty_Z_noLineBreak.
  reflexivity.
Qed.

(** ** Further facts: the processes the bot signals *)

Lemma ownProcesses_emit (e : Effect) (st : BotState) :
  (forall p signal, e = Kill p signal -> started p st) ->
  ownProcesses st -> ownProcesses (emit e st).
Proof.
  intros K [R S]. split.
  - intros p H. destruct (R p H) as [cmd I]. exists cmd.
    simpl. apply elem_of_app. by left.
  - intros p sig [I|I%list_elem_of_singleton]%elem_of_app.
    + destruct (S p sig I) as [cmd J]. exists cmd. simpl. apply elem_of_app. by left.
    + destruct (K p sig (eq_sym I)) as [cmd J]. exists cmd.
      simpl. apply elem_of_app. by left.
Qed.

Lemma ownProcesses_fields (st st' : BotState) :
  effects st' = effects st ->
  (currentDownloadProcess st' = currentDownloadProcess st \/
   currentDownloadProcess st' = None) ->
  ownProcesses st -> ownProcesses st'.
Proof.
  intros E P [R S]. unfold ownProcesses, started. rewrite E. split; [|done].
  intros p H. destruct P as [P|P]; rewrite P in H; [by apply R|discriminate].
Qed.

Lemma ownProcesses_notice (chatId : Z) (text : JsValue) (st : BotState) :
  ownProcesses st -> ownProcesses (sendMessage chatId text st).
Proof. apply ownProcesses_emit. discriminate. Qed.

Lemma ownProcesses_downloadMedia (now : N) (child : nat) (url format : string)
    (isAudio : bool) (chatId : Z) (st : BotState) :
  ownProcesses st ->
  ownProcesses (fst (downloadMedia now child url format isAudio chatId st)).
Proof.
  intros [R S].
  destruct (Z.leb_spec maxConcurrentDownloads (activeDownloadCount st)) as [H|H].
  - rewrite downloadMedia_at_capacity by done. by apply ownProcesses_notice.
  - rewrite downloadMedia_below_capacity by done. unfold ownProcesses, started.
    simpl. split.
    + intros p [= <-]. eexists. apply elem_of_app. right. by left.
    + intros p sig [I|I%list_elem_of_singleton]%elem_of_app; [|discriminate].
      destruct (S p sig I) as [cmd J]. exists cmd. apply elem_of_app. by left.
Qed.

Lemma ownProcesses_downloadMediaExec (now : N) (exec : ExecOutcome)
    (url format : string) (isAudio : bool) (chatId : Z) (st : BotState) :
  ownProcesses st ->
  ownProcesses (fst (downloadMediaExec now exec url format isAudio chatId st)).
Proof.
  intros O. destruct exec as [child|e].
  - rewrite downloadMediaExec_started. simpl. by apply ownProcesses_downloadMedia.
  - destruct (Z.leb_spec maxConcurrentDownloads (activeDownloadCount st)) as [H|H].
    + unfold downloadMediaExec.
      destruct (Z.leb_spec maxConcurrentDownloads (activeDownloadCount st)); [|lia].
      by apply ownProcesses_notice.
    + rewrite downloadMediaExec_thrown by done. simpl.
      apply (ownProcesses_fields
               (emit (ExecRaised (commandLine format (outputPath now isAudio) url)) st));
        [done|by left|].
      apply ownProcesses_emit; [discriminate|done].
Qed.

Lemma ownProcesses_step (st : BotState) (ev : BotEvent) :
  ownProcesses st -> ownProcesses (step st ev).
Proof.
  intros O. destruct ev; simpl.
  - unfold onDownloadCommand.
    destruct (_ || _); simpl; [by apply ownProcesses_notice|].
    destruct (isSupportedDomain _) as [[|]|]; simpl;
      [|by apply ownProcesses_notice|done].
    match goal with
    | |- context [downloadMedia ?n ?ch ?u ?f ?a ?i ?s] =>
        assert (ownProcesses s) as O2
          by (apply ownProcesses_emit; [discriminate|by apply ownProcesses_notice]);
        pose proof (ownProcesses_downloadMedia n ch u f a i s O2) as D;
        destruct (downloadMedia n ch u f a i s) as [st3 []]
    end; exact D.
  - unfold processEnded, execCallback.
    apply (ownProcesses_fields st); [by destruct (execError t)| |done].
    right. by destruct (execError t).
  - destruct r; simpl.
    + apply ownProcesses_emit; [|done]. by destruct (isAudioOf c).
    + by apply ownProcesses_notice.
  - unfold afterSend. destruct r; [|by apply ownProcesses_notice].
    unfold unlinkSync. destruct filePath; [|by apply ownProcesses_notice].
    case_decide; [|by apply ownProcesses_notice].
    apply (ownProcesses_fields st); [done|by left|done].
  - unfold onStop. destruct (currentDownloadProcess st) as [p|] eqn:E.
    + apply ownProcesses_notice.
      apply (ownProcesses_fields (emit (Kill p "SIGINT") st)); [done|by right|].
      apply ownProcesses_emit; [|done].
      intros q sig [= <- _]. by apply O.
    + by apply ownProcesses_notice.
  - unfold onDelete. destruct readdirFailed; [by apply ownProcesses_notice|].
    case_decide; apply ownProcesses_notice; [done|].
    apply (ownProcesses_fields st); [done|by left|done].
  - unfold dailySweep. destruct readdirFailed; [done|].
    apply (ownProcesses_fields st); [done|by left|done].
  - apply (ownProcesses_fields st); [done|by left|done].
  - unfold onMessage. destruct (text msg); [|done].
    destruct (_ || _); [by apply ownProcesses_notice|].
    destruct (negb _); [by apply ownProcesses_notice|done].
  - unfold onDownloadCommandExec.
    destruct (_ || _); simpl; [by apply ownProcesses_notice|].
    destruct (isSupportedDomain _) as [[|]|]; simpl;
      [|by apply ownProcesses_notice|done].
    match goal with
    | |- context [downloadMediaExec ?n ?x ?u ?f ?a ?i ?s] =>
        assert (ownProcesses s) as O2
          by (apply ownProcesses_emit; [discriminate|by apply ownProcesses_notice]);
        pose proof (ownProcesses_downloadMediaExec n x u f a i s O2) as D;
        destruct (downloadMediaExec n x u f a i s) as [st3 []]
    end; exact D.
Qed.

Lemma ownProcesses_run (evs : list BotEvent) (st : BotState) :
  ownProcesses st -> ownProcesses (run st evs).
Proof.
  revert st. induction evs as [|ev evs IH]; intros st O; [done|].
  apply IH. by apply ownProcesses_step.
Qed.

(** X17: in every run from the idle state, a signal is only ever sent to a
    process that the bot itself has started, and the registry only ever
    holds such a process. *)
Theorem signals_own_processes (evs : list BotEvent) (p : nat) :
  (forall signal, Kill p signal ∈ effects (run initialState evs) ->
   started p (run initialState evs)) /\
  (currentDownloadProcess (run initialState evs) = Some p ->
   started p (run initialState evs)).
Proof.
  assert (ownProcesses initialState) as O.
  { split; [discriminate|]. intros q sig I. by apply elem_of_nil in I. }
  destruct (ownProcesses_run evs initialState O) as [R S].
  split; [intros sig; apply S|apply R].
Qed.

End Bot.

(** ** The model at concrete inputs

    The runs below take [simpleHostname] for the URL constructor, the
    directory /srv/bot/downloads and the separator of POSIX paths. *)

Lemma normalizeUrl_spec_witness :
  (exists pre rest,
     break_at "https://www.youtube.com/shorts/abc123?feature=share" "/shorts/"
     = Some (pre, rest) /\
     "https://www.youtube.com/shorts/abc123?feature=share"
     = pre +:+ "/shorts/" +:+ rest /\
     normalizeUrl "https://www.youtube.com/shorts/abc123?feature=share"
     = watchPrefix +:+ before (before rest "/shorts/") "?" /\
     includes (before (before rest "/shorts/") "?") "?" = false) /\
  normalizeUrl "https://youtu.be/abc123" = "https://youtu.be/abc123".
Proof.
  split.
  - apply (proj1 (normalizeUrl_spec
                    "https://www.youtube.com/shorts/abc123?feature=share")).
    reflexivity.
  - apply (proj2 (normalizeUrl_spec "https://youtu.be/abc123")). reflexivity.
Defined.

(** C3, as the claim has it, fails on a URL in which /shorts/ occurs twice:
    the text after the marker, cut at the question mark, is a/b/shorts/c
    and its first path segment is a, while the code returns a/b. *)
Lemma normalizeUrl_counterexample :
  includes "https://www.youtube.com/shorts/a/b/shorts/c?t=1" shortsMarker = true /\
  videoIdAfterMarker "https://www.youtube.com/shorts/a/b/shorts/c?t=1"
  = Some "a/b/shorts/c" /\
  normalizeUrl "https://www.youtube.com/shorts/a/b/shorts/c?t=1"
  = "https://www.youtube.com/watch?v=a/b" /\
  normalizeUrl "https://www.youtube.com/shorts/a/b/shorts/c?t=1"
  <> watchPrefix +:+ "a/b/shorts/c" /\
  normalizeUrl "https://www.youtube.com/shorts/a/b/shorts/c?t=1"
  <> watchPrefix +:+ before "a/b/shorts/c" "/".
Proof. repeat split; discriminate. Qed.

Lemma isSupportedDomain_malformed_witness :
  isSupportedDomain simpleHostname "youtube.com/watch?v=abc123" = Normal false.
Proof.
  apply (isSupportedDomain_malformed simpleHostname "youtube.com/watch?v=abc123"
           (VError "TypeError" "Invalid URL")).
  reflexivity.
Defined.

Lemma isSupportedDomain_substring_witness :
  (isSupportedDomain simpleHostname "https://notyoutube.com.evil.example/x"
   = Normal true <->
   exists domain a b,
     In domain SUPPORTED_DOMAINS /\
     "notyoutube.com.evil.example" = a +:+ domain +:+ b) /\
  ("notyoutube.com.evil.example" = "notyoutube.com.evil.example" ->
   isSupportedDomain simpleHostname "https://notyoutube.com.evil.example/x"
   = Normal true /\
   forall domain a,
     In domain SUPPORTED_DOMAINS -> "notyoutube.com.evil.example" <> a +:+ domain).
Proof.
  apply (isSupportedDomain_substring simpleHostname
           "https://notyoutube.com.evil.example/x" "notyoutube.com.evil.example").
  reflexivity.
Defined.

Example isSupportedDomain_examples :
  isSupportedDomain simpleHostname "https://www.youtube.com/watch?v=abc123"
  = Normal true /\
  isSupportedDomain simpleHostname "https://example.org/watch?v=youtube.com"
  = Normal false /\
  isSupportedDomain simpleHostname "https://notyoutube.com.evil.example/x"
  = Normal true.
Proof. by repeat split. Qed.

Lemma onStop_spec_witness :
  onStop 42 initialState
  = mkBotState 0 None ∅ [SendMessage 42 (VString noDownloadNotice)] /\
  onStop 42 (mkBotState 1 (Some 7%nat) ∅ [])
  = mkBotState 1 None ∅
      [Kill 7 "SIGINT"; SendMessage 42 (VString stoppedNotice)].
Proof.
  split.
  - apply (proj1 (onStop_spec 42 initialState)). reflexivity.
  - apply (proj2 (onStop_spec 42 (mkBotState 1 (Some 7%nat) ∅ [])) 7%nat).
    reflexivity.
Defined.

Lemma afterSend_cleanup_witness :
  let file := "/srv/bot/downloads/1700000000000.mp3" in
  let st := mkBotState 0 None {[file]} [] in
  (afterSend 42 (Some file) (Normal ()) st = setDownloads (downloads st ∖ {[file]}) st /\
   file ∉ downloads (afterSend 42 (Some file) (Normal ()) st)) /\
  (forall e,
   afterSend 42 (Some file) (Throw e) st
   = sendMessage 42 (orElse e downloadFailedNotice) st /\
   downloads (afterSend 42 (Some file) (Throw e) st) = downloads st /\
   file ∈ downloads (afterSend 42 (Some file) (Throw e) st)).
Proof.
  apply (afterSend_cleanup 42 "/srv/bot/downloads/1700000000000.mp3"
           (mkBotState 0 None {["/srv/bot/downloads/1700000000000.mp3"]} [])).
  simpl. apply elem_of_singleton. reflexivity.
Defined.

(** Two audio jobs admitted in the same millisecond are given the same
    output path. *)
Lemma outputPath_collision :
  let first :=
    downloadMedia "/srv/bot/downloads" "/" 1700000000000 1
      "https://youtu.be/abc" "bestaudio" true 42 initialState in
  let second :=
    downloadMedia "/srv/bot/downloads" "/" 1700000000000 2
      "https://youtu.be/xyz" "bestaudio" true 43 (fst first) in
  snd first = ReturnsPromise 1 "/srv/bot/downloads/1700000000000.mp3" /\
  snd second = ReturnsPromise 2 "/srv/bot/downloads/1700000000000.mp3".
Proof. vm_compute. by split. Qed.

Lemma outputPath_same_iff_witness :
  (1700000000000 = 1700000000000)%N /\ true = true.
Proof.
  apply (proj1 (outputPath_same_iff "/srv/bot/downloads" "/"
                  1700000000000 1700000000000 true true)).
  reflexivity.
Defined.

Lemma request_notices_witness :
  onDownloadCommand simpleHostname "/srv/bot/downloads" "/" Audio 42
    "https://youtu.be/abc" 1700000000000 8 (mkBotState 5 (Some 7%nat) ∅ [])
  = (mkBotState 5 (Some 7%nat) ∅
       [SendMessage 42 (VString (downloadingNotice Audio));
        LogUserAction 42 "audio https://youtu.be/abc";
        SendMessage 42 (VString queueFullNotice)],
     AwaitValue).
Proof.
  apply (request_notices simpleHostname "/srv/bot/downloads" "/" Audio 42
           "https://youtu.be/abc" 1700000000000 8 (mkBotState 5 (Some 7%nat) ∅ [])).
  - split; reflexivity.
  - simpl. unfold maxConcurrentDownloads. lia.
Defined.

(** C6, as the claim has it, fails on the outcomes themselves: a job that
    fails has sent two notices by the time it ends, the progress notice and
    the failure notice, and a job that is delivered has sent the progress
    notice alone, before it ran, and none on delivery. *)
Lemma request_notices_counterexample :
  (let '(s1, _) :=
     onDownloadCommand simpleHostname "/srv/bot/downloads" "/" Audio 42
       "https://youtu.be/abc" 1700000000000 1 initialState in
   let '(s2, r) :=
     processEnded ExitedNonZero "" "ERROR: Video unavailable"
       "/srv/bot/downloads/1700000000000.mp3" s1 in
   let '(s3, pending) := afterDownload Audio 42 r s2 in
   pending = Finished /\
   notices s3 =
   [(42%Z, VString "⏳ Downloading audio...");
    (42%Z, VString "❌ Download error: ERROR: Video unavailable")]) /\
  (let '(s1, _) :=
     onDownloadCommand simpleHostname "/srv/bot/downloads" "/" Audio 42
       "https://youtu.be/abc" 1700000000000 1 initialState in
   let s1' := step simpleHostname "/srv/bot/downloads" "/" s1
                (FileWritten "/srv/bot/downloads/1700000000000.mp3") in
   let '(s2, r) :=
     processEnded ExitedZero "" "" "/srv/bot/downloads/1700000000000.mp3" s1' in
   let '(s3, pending) := afterDownload Audio 42 r s2 in
   let s4 := afterSend 42 (Some "/srv/bot/downloads/1700000000000.mp3") (Normal ()) s3 in
   pending = AwaitSend (Some "/srv/bot/downloads/1700000000000.mp3") /\
   downloads s4 = ∅ /\
   notices s4 = [(42%Z, VString "⏳ Downloading audio...")]).
Proof. vm_compute. by repeat split. Qed.

(** A request refused at capacity does not end with the queue-full notice:
    the handler awaits the [undefined] that [downloadMedia] returned and
    passes it to the transmission, and the [catch] block then sends a
    further message, whether the transmission settles well or not. *)
Lemma queue_full_request_goes_on (r : Completion unit) :
  let '(s1, pending) :=
    onDownloadCommand simpleHostname "/srv/bot/downloads" "/" Audio 42
      "https://youtu.be/abc" 1700000000000 8 (mkBotState 5 (Some 7%nat) ∅ []) in
  let '(s2, pending') := afterDownload Audio 42 (Fulfilled None) s1 in
  let s3 := afterSend 42 None r s2 in
  pending = AwaitValue /\
  pending' = AwaitSend None /\
  filter isTransmission (effects s3) = [SendAudio 42 None] /\
  filter isSpawn (effects s3) = [] /\
  length (notices s3) = 3%nat.
Proof. destruct r; vm_compute; by repeat split. Qed.

Lemma onMessage_spec_witness :
  (exists e, onMessage (mkMessage 42 (Some "Ann") None) initialState = Throw e) /\
  onMessage (mkMessage 42 (Some "Ann") (Some "What is this?")) initialState
  = Normal (mkBotState 0 None ∅ [SendMessage 42 (VString invalidCommandNotice)]).
Proof.
  split.
  - apply (proj1 (onMessage_spec (mkMessage 42 (Some "Ann") None) initialState)).
    reflexivity.
  - apply (proj2 (onMessage_spec (mkMessage 42 (Some "Ann") (Some "What is this?"))
                    initialState) "What is this?"); try reflexivity; discriminate.
Defined.

Example onMessage_examples :
  onMessage (mkMessage 42 None (Some " HeLLo ")) initialState
  = Normal (mkBotState 0 None ∅
              [SendMessage 42
                 (VString "👋 Hello, User! Welcome to the Media Downloader Bot! Use /help to see available commands.")]) /\
  onMessage (mkMessage 42 None (Some "/stop")) initialState = Normal initialState.
Proof. by split. Qed.

(** ** The further facts at concrete inputs *)

Lemma stop_reaches_latest_job_witness :
  currentDownloadProcess
    (fst (downloadMedia "/srv/bot/downloads" "/" 1700000000001 2
            "https://youtu.be/xyz" "bestvideo" false 43
            (fst (downloadMedia "/srv/bot/downloads" "/" 1700000000000 1
                    "https://youtu.be/abc" "bestaudio" true 42 initialState))))
  = Some 2%nat.
Proof.
  apply (stop_reaches_latest_job "/srv/bot/downloads" "/" initialState 1 2
           1700000000000 1700000000001 "https://youtu.be/abc" "https://youtu.be/xyz"
           "bestaudio" "bestvideo" true false 42 43 42 42).
  reflexivity.
Defined.

Lemma stop_after_other_job_ended_witness :
  let st2 :=
    fst (downloadMedia "/srv/bot/downloads" "/" 1700000000001 2
           "https://youtu.be/xyz" "bestvideo" false 43
           (fst (downloadMedia "/srv/bot/downloads" "/" 1700000000000 1
                   "https://youtu.be/abc" "bestaudio" true 42 initialState))) in
  let st3 :=
    fst (processEnded ExitedZero "" ""
           (outputPath "/srv/bot/downloads" "/" 1700000000000 true) st2) in
  onStop 43 st3 = sendMessage 43 (VString noDownloadNotice) st3.
Proof.
  apply (stop_after_other_job_ended "/srv/bot/downloads" "/" initialState 1 2
           1700000000000 1700000000001 "https://youtu.be/abc" "https://youtu.be/xyz"
           "bestaudio" "bestvideo" "" "" true false 42 43 43 ExitedZero).
  reflexivity.
Defined.

Lemma failed_job_notice_witness :
  afterDownload Audio 42
    (snd (processEnded KilledBySignal "" "" "/srv/bot/downloads/1.mp3" initialState))
    initialState
  = (sendMessage 42 (VString ("❌ Download error: " +:+ "")) initialState, Finished) /\
  snd (downloadMediaExec "/srv/bot/downloads" "/" 1700000000000
         (ExecThrew (VError "Error" "spawn E2BIG")) "https://youtu.be/abc"
         "bestaudio" true 42 initialState)
  = MediaRejected (VError "Error" "spawn E2BIG") /\
  afterDownload Audio 42 (RejectedWith (VError "Error" "spawn E2BIG")) initialState
  = (sendMessage 42 (VError "Error" "spawn E2BIG") initialState, Finished).
Proof.
  split.
  - apply (proj1 (failed_job_notice "/srv/bot/downloads" "/" Audio 42 KilledBySignal
                    "" "" "/srv/bot/downloads/1.mp3" initialState initialState
                    1700000000000 "Error" "spawn E2BIG" "https://youtu.be/abc"
                    "bestaudio" true)).
    reflexivity.
  - apply (proj2 (failed_job_notice "/srv/bot/downloads" "/" Audio 42 KilledBySignal
                    "" "" "/srv/bot/downloads/1.mp3" initialState initialState
                    1700000000000 "Error" "spawn E2BIG" "https://youtu.be/abc"
                    "bestaudio" true)).
    reflexivity.
Defined.

Lemma afterSend_file_gone_witness :
  afterSend 42 (Some "/srv/bot/downloads/1.mp3") (Normal ()) initialState
  = mkBotState 0 None ∅
      [SendMessage 42 (VError "Error" "ENOENT: no such file or directory, unlink")].
Proof.
  apply (afterSend_file_gone 42 "/srv/bot/downloads/1.mp3" initialState).
  apply not_elem_of_empty.
Defined.

Lemma freshListing_example :
  freshListing "/srv/bot/downloads" "/" ["1.mp3"]
    (mkBotState 0 None {["/srv/bot/downloads/1.mp3"]} []).
Proof. unfold freshListing. simpl. by rewrite elements_singleton. Defined.

Lemma freshListing_empty_example :
  freshListing "/srv/bot/downloads" "/" [] initialState.
Proof. unfold freshListing. simpl. by rewrite elements_empty. Defined.

Lemma deleteCallback_fresh_witness :
  deleteCallback "/srv/bot/downloads" "/" 42 false [] initialState
  = (mkBotState 0 None ∅ [SendMessage 42 (VString "⚠️ No files to delete.")], None) /\
  deleteCallback "/srv/bot/downloads" "/" 42 false ["1.mp3"]
    (mkBotState 0 None {["/srv/bot/downloads/1.mp3"]} [])
  = (mkBotState 0 None ∅
       [SendMessage 42 (VString "🗑️ All downloaded files have been deleted.")],
     None).
Proof.
  split.
  - refine (proj1 (deleteCallback_fresh "/srv/bot/downloads" "/" 42 [] initialState
                     freshListing_empty_example) _).
    reflexivity.
  - refine (proj2 (deleteCallback_fresh "/srv/bot/downloads" "/" 42 ["1.mp3"]
                     (mkBotState 0 None {["/srv/bot/downloads/1.mp3"]} [])
                     freshListing_example) _).
    simpl. intros E.
    assert ("/srv/bot/downloads/1.mp3" ∈ (∅ : gset string)) as I
      by (rewrite <- E; by apply elem_of_singleton).
    by apply not_elem_of_empty in I.
Defined.

Lemma deleteCallback_stale_witness :
  exists st' e,
    deleteCallback "/srv/bot/downloads" "/" 42 false ["1.mp3"; "2.mp4"]
      (mkBotState 0 None {["/srv/bot/downloads/1.mp3"]} [])
    = (st', Some e) /\
    effects st' = [] /\
    downloads st' ⊆ {["/srv/bot/downloads/1.mp3"]}.
Proof.
  refine (deleteCallback_stale "/srv/bot/downloads" "/" 42 ["1.mp3"; "2.mp4"] "2.mp4"
            (mkBotState 0 None {["/srv/bot/downloads/1.mp3"]} []) _ _).
  - right. left.
  - simpl. intros H. apply elem_of_singleton in H. discriminate H.
Defined.

Lemma sweepCallback_spec_witness :
  sweepCallback "/srv/bot/downloads" "/" false ["1.mp3"]
    (mkBotState 0 None {["/srv/bot/downloads/1.mp3"]} [])
  = (dailySweep false (mkBotState 0 None {["/srv/bot/downloads/1.mp3"]} []), None) /\
  downloads (dailySweep false (mkBotState 0 None {["/srv/bot/downloads/1.mp3"]} []))
  = ∅.
Proof.
  apply (sweepCallback_spec "/srv/bot/downloads" "/" false ["1.mp3"]
           (mkBotState 0 None {["/srv/bot/downloads/1.mp3"]} [])).
  exact freshListing_example.
Defined.

Lemma downloadPatternExec_sound_witness :
  (Video = Audio \/ Video = Video) /\
  "https://youtu.be/abc" <> "" /\
  oneLine "https://youtu.be/abc" = true /\
  exists pre post,
    "now /video https://youtu.be/abc" +:+ utf8 [226; 128; 168] +:+ "thanks"
    = pre +:+ "/" +:+ commandName Video +:+ " " +:+ "https://youtu.be/abc" +:+ post /\
    (post = "" \/ lineTerminatorAt post = true).
Proof.
  apply (downloadPatternExec_sound
           ("now /video https://youtu.be/abc" +:+ utf8 [226; 128; 168] +:+ "thanks")
           Video "https://youtu.be/abc").
  reflexivity.
Defined.

Lemma command_patterns_plain_witness :
  downloadPatternExec ("/audio " +:+ "https://youtu.be/abc")
  = Some (Audio, "https://youtu.be/abc") /\
  downloadPatternExec ("/video " +:+ "https://youtu.be/abc")
  = Some (Video, "https://youtu.be/abc") /\
  mutePatternExec ("/mute-video " +:+ "https://youtu.be/abc")
  = Some "https://youtu.be/abc".
Proof.
  apply (command_patterns_plain "https://youtu.be/abc"); [discriminate|reflexivity].
Defined.

Lemma command_patterns_apart_witness :
  downloadPatternExec ("/mute-video " +:+ "https://youtu.be/abc") = None /\
  mutePatternExec ("/audio " +:+ "https://youtu.be/abc") = None /\
  mutePatternExec ("/video " +:+ "https://youtu.be/abc") = None.
Proof.
  split.
  - apply (proj1 (command_patterns_apart "https://youtu.be/abc")); reflexivity.
  - apply (proj2 (command_patterns_apart "https://youtu.be/abc")). reflexivity.
Defined.

(** A mute-video command whose argument holds a video command is matched by
    both patterns. *)
Example command_patterns_both :
  mutePatternExec "/mute-video https://example.org/video x" = Some "https://example.org/video x" /\
  downloadPatternExec "/mute-video https://example.org/video x" = Some (Video, "x").
Proof. by split. Qed.

Lemma signals_own_processes_witness :
  started 1
    (run simpleHostname "/srv/bot/downloads" "/" initialState
       [DownloadCommand Audio 42 "https://youtu.be/abc" 1700000000000 1;
        StopCommand 42]).
Proof.
  apply (proj1 (signals_own_processes simpleHostname "/srv/bot/downloads" "/"
                  [DownloadCommand Audio 42 "https://youtu.be/abc" 1700000000000 1;
                   StopCommand 42] 1) "SIGINT").
  vm_compute. right. right. right. left.
Defined.

Example logLine_example :
  logLine 42 ("audio https://youtu.be/abc" +:+ String (Ascii.ascii_of_nat 10) "x")
    "2024-01-01T00:00:00.000Z" (String (Ascii.ascii_of_nat 10) "")
  = "{" +:+ dquote +:+ "chatId" +:+ dquote +:+ ":42,"
    +:+ dquote +:+ "action" +:+ dquote +:+ ":"
    +:+ dquote +:+ "audio https://youtu.be/abc\nx" +:+ dquote +:+ ","
    +:+ dquote +:+ "timestamp" +:+ dquote +:+ ":"
    +:+ dquote +:+ "2024-01-01T00:00:00.000Z" +:+ dquote +:+ ","
    +:+ dquote +:+ "ip" +:+ dquote +:+ ":" +:+ dquote +:+ "Unavailable" +:+ dquote
    +:+ "}" +:+ String (Ascii.ascii_of_nat 10) "".
Proof. reflexivity. Qed.

(** White space outside ASCII is trimmed too: a greeting and a command
    between no-break spaces are read as such, and a URL after a no-break
    space passes the first check of the download handler. *)
Example onMessage_unicode_space :
  onMessage (mkMessage 42 None (Some (utf8 [194; 160] +:+ "Hi" +:+ utf8 [194; 160])))
    initialState
  = Normal (mkBotState 0 None ∅
              [SendMessage 42
                 (VString "👋 Hello, User! Welcome to the Media Downloader Bot! Use /help to see available commands.")]) /\
  onMessage (mkMessage 42 None (Some (utf8 [194; 160] +:+ "/stop"))) initialState
  = Normal initialState.
Proof. by split. Qed.

Example onDownloadCommand_unicode_space :
  snd (onDownloadCommand simpleHostname "/srv/bot/downloads" "/" Audio 42
         (utf8 [194; 160] +:+ "https://youtu.be/abc" +:+ utf8 [227; 128; 128])
         1700000000000 1 initialState)
  = AwaitDownload 1 "/srv/bot/downloads/1700000000000.mp3".
Proof. vm_compute. reflexivity. Qed.

(** The dot stops at U+2028 as it stops at a line feed. *)
Example downloadPatternExec_line_separator :
  downloadPatternExec ("/audio a" +:+ utf8 [226; 128; 168] +:+ "b") = Some (Audio, "a") /\
  oneLine ("a" +:+ utf8 [226; 128; 168] +:+ "b") = false.
Proof. by split. Qed.
